(** * Multi-tool chatbot (app.py): a shallow embedding and its properties

    The program reads a question, classifies it by keyword ([detect_intent]),
    possibly extracts a city ([extract_city_from_question]) and fetches its
    weather ([get_weather]), and hands a composed prompt to a language model
    ([ask_ai_with_tools]).

    Text.  A Python [str] is modelled as a [string] of the Standard Library.
    The character tables below ([isspace], [is_word], [lower], ...) are
    CPython's on the ASCII code points 0..127.  Values 128..255 of [ascii]
    only carry the UTF-8 bytes of the program's own literals; they are
    uncased and neither word nor space characters, so the model says nothing
    about accented letters in a question.

    Effects.  Printing, the HTTP request, the clock and the language model
    are events of a log; what the outside world answers is read from a
    [World] of oracles that see the log so far. *)

From Stdlib Require Import String Ascii List Bool Arith Lia DecimalString.
Import ListNotations.
Open Scope list_scope.
Open Scope string_scope.
Open Scope nat_scope.

(** ** Python's string primitives, on ASCII *)

Module PyStr.

Definition ord (c : ascii) : nat := nat_of_ascii c.

Definition between (lo hi : nat) (c : ascii) : bool :=
  (lo <=? ord c) && (ord c <=? hi).

(** [c.isupper()] and [c.islower()] for one character. *)
Definition isupper_char : ascii -> bool := between 65 90.
Definition islower_char : ascii -> bool := between 97 122.
Definition isdigit_char : ascii -> bool := between 48 57.
Definition iscased (c : ascii) : bool := isupper_char c || islower_char c.

(** [c.isspace()]: tab, newline, vertical tab, form feed, carriage return,
    the four separators 0x1c..0x1f and the space; the class [\s] of [re] on
    a [str] pattern is the same set. *)
Definition isspace (c : ascii) : bool :=
  between 9 13 c || between 28 31 c || (ord c =? 32).

(** The class [\w] of [re]: alphanumeric or underscore. *)
Definition is_word (c : ascii) : bool :=
  iscased c || isdigit_char c || (ord c =? 95).

Definition lower_char (c : ascii) : ascii :=
  if isupper_char c then ascii_of_nat (ord c + 32) else c.

Definition upper_char (c : ascii) : ascii :=
  if islower_char c then ascii_of_nat (ord c - 32) else c.

Fixpoint map_chars (f : ascii -> ascii) (s : string) : string :=
  match s with
  | EmptyString => EmptyString
  | String c r => String (f c) (map_chars f r)
  end.

Fixpoint filter_chars (keep : ascii -> bool) (s : string) : string :=
  match s with
  | EmptyString => EmptyString
  | String c r =>
      if keep c then String c (filter_chars keep r) else filter_chars keep r
  end.

(** [s.lower()] *)
Definition lower : string -> string := map_chars lower_char.

(** [s.title()]: a cased character is upper-cased when the character before
    it is not cased, and lower-cased otherwise. *)
Fixpoint title_from (previous_is_cased : bool) (s : string) : string :=
  match s with
  | EmptyString => EmptyString
  | String c r =>
      String (if previous_is_cased then lower_char c else upper_char c)
             (title_from (iscased c) r)
  end.

Definition title : string -> string := title_from false.

(** [s.split()]: the maximal runs of non-space characters. *)
Fixpoint split_from (tok : string) (s : string) : list string :=
  match s with
  | EmptyString => match tok with EmptyString => [] | _ => [tok] end
  | String c r =>
      if isspace c
      then match tok with
           | EmptyString => split_from EmptyString r
           | _ => tok :: split_from EmptyString r
           end
      else split_from (tok ++ String c EmptyString) r
  end.

Definition split : string -> list string := split_from EmptyString.

(** [s.strip()] *)
Fixpoint lstrip (s : string) : string :=
  match s with
  | EmptyString => EmptyString
  | String c r => if isspace c then lstrip r else s
  end.

Fixpoint rstrip (s : string) : string :=
  match s with
  | EmptyString => EmptyString
  | String c r =>
      match rstrip r with
      | EmptyString => if isspace c then EmptyString else String c EmptyString
      | r' => String c r'
      end
  end.

Definition strip (s : string) : string := rstrip (lstrip s).

(** [sep.join(parts)] *)
Definition join (sep : string) (parts : list string) : string :=
  String.concat sep parts.

(** [needle in haystack] on strings: [needle] occurs as a substring. *)
Fixpoint contains (needle haystack : string) : bool :=
  String.prefix needle haystack
  || match haystack with
     | EmptyString => false
     | String _ r => contains needle r
     end.

(** [x in xs] and [xs.index(x)] on a list of strings; [index] is [None]
    where Python raises ValueError. *)
Definition list_in (x : string) (xs : list string) : bool :=
  existsb (String.eqb x) xs.

Fixpoint index (x : string) (xs : list string) : option nat :=
  match xs with
  | [] => None
  | y :: r => if String.eqb y x then Some 0
              else match index x r with
                   | Some i => Some (S i)
                   | None => None
                   end
  end.

(** [s[:n]] *)
Fixpoint take (n : nat) (s : string) : string :=
  match n, s with
  | S k, String c r => String c (take k r)
  | _, _ => EmptyString
  end.

(** [s * n] *)
Fixpoint repeat_str (s : string) (n : nat) : string :=
  match n with
  | O => EmptyString
  | S k => s ++ repeat_str s k
  end.

(** [re.sub(r'[^\w\s]', '', s)] and [re.sub(r'[^\w]', '', s)] *)
Definition sub_nonword_nonspace : string -> string :=
  filter_chars (fun c => is_word c || isspace c).

Definition sub_nonword : string -> string := filter_chars is_word.

End PyStr.

(** ** Intent detection and city extraction *)

Definition weather_keywords : list string :=
  ["weather"; "temperature"; "rain"; "sunny"; "cloudy"].

Definition time_keywords : list string :=
  ["time"; "date"; "today"; "what's the time"].

(** [any(word in text for word in keywords)] *)
Definition any_in (keywords : list string) (text : string) : bool :=
  existsb (fun word => PyStr.contains word text) keywords.

Definition detect_intent (question : string) : string :=
  let question_lower := PyStr.lower question in
  if any_in weather_keywords question_lower then "weather"
  else if any_in time_keywords question_lower then "time"
  else "general".

Definition trigger_words : list string := ["in"; "for"; "at"].

(** The cleaned, lower-cased word list of a question. *)
Definition clean_words (question : string) : list string :=
  let clean_question := PyStr.sub_nonword_nonspace (PyStr.lower question) in
  PyStr.split clean_question.

(** The loop over the trigger words.  A trigger that is present returns the
    words after its first occurrence when there are any; otherwise the loop
    goes on with the next trigger. *)
Fixpoint scan_triggers (triggers words : list string) : option string :=
  match triggers with
  | [] => None
  | trigger :: rest =>
      if PyStr.list_in trigger words then
        match PyStr.index trigger words with
        | Some i =>
            let city_index := i + 1 in
            if city_index <? length words then
              let city_parts := skipn city_index words in
              Some (PyStr.title (PyStr.join " " city_parts))
            else scan_triggers rest words
        | None => scan_triggers rest words (* except ValueError: continue *)
        end
      else scan_triggers rest words
  end.

(** [clean_word and clean_word[0].isupper() and len(clean_word) > 2] *)
Definition looks_like_city (clean_word : string) : bool :=
  match clean_word with
  | EmptyString => false
  | String c _ => PyStr.isupper_char c && (2 <? String.length clean_word)
  end.

(** The loop over the words of the original question. *)
Fixpoint scan_capitalized (original_words : list string) : option string :=
  match original_words with
  | [] => None
  | word :: rest =>
      let clean_word := PyStr.sub_nonword word in
      if looks_like_city clean_word then Some clean_word
      else scan_capitalized rest
  end.

Definition extract_city_from_question (question : string) : option string :=
  match scan_triggers trigger_words (clean_words question) with
  | Some city => Some city
  | None => scan_capitalized (PyStr.split question)
  end.

(** ** Parsed JSON, as the Python objects [response.json()] builds *)

(** A number carries the text Python prints for it: the program formats
    numbers into a prompt and never computes with them. *)
#[warnings="-register-all"]
Inductive json : Type :=
| JNull
| JBool (b : bool)
| JNum (text : string)
| JStr (s : string)
| JArr (items : list json)
| JObj (fields : list (string * json)).

(** The subscripts the program uses: a string key or a list position. *)
Inductive subscript : Type :=
| Key (k : string)
| Idx (i : nat).

Inductive exn : Type :=
| HTTPError (msg : string)          (* requests.exceptions.HTTPError *)
| RequestException (msg : string)   (* any other requests exception *)
| KeyError (key : subscript)
| IndexError
| TypeError
| AttributeError
| UnboundLocalError
| EOFError
| ModelError (msg : string).        (* whatever the model call raises *)

Definition result (A : Type) : Type := (exn + A)%type.

(** Sequencing of steps that may raise. *)
Definition and_then {A B : Type} (r : result A) (k : A -> result B) : result B :=
  match r with
  | inl e => inl e
  | inr a => k a
  end.

Notation "'let?' x := r 'in' k" := (and_then r (fun x => k))
  (at level 10, x name, r at level 100, k at level 200).

Module PyRepr.

Definition hex_digit (n : nat) : ascii :=
  if n <? 10 then ascii_of_nat (48 + n) else ascii_of_nat (87 + n).

Definition backslash : ascii := ascii_of_nat 92.
Definition squote : ascii := ascii_of_nat 39.
Definition dquote : ascii := ascii_of_nat 34.

Definition has_char (c : ascii) (s : string) : bool :=
  PyStr.contains (String c EmptyString) s.

Definition escape_char (quote c : ascii) : string :=
  let n := PyStr.ord c in
  if (n =? 92) || Ascii.eqb c quote then String backslash (String c EmptyString)
  else if n =? 9 then String backslash "t"
  else if n =? 10 then String backslash "n"
  else if n =? 13 then String backslash "r"
  else if (n <? 32) || (n =? 127) then
    String backslash
      (String "x" (String (hex_digit (n / 16)) (String (hex_digit (n mod 16)) "")))
  else String c EmptyString.

Fixpoint escape (quote : ascii) (s : string) : string :=
  match s with
  | EmptyString => EmptyString
  | String c r => escape_char quote c ++ escape quote r
  end.

(** [repr(s)] of a string: single quotes, unless the string has a single
    quote and no double quote. *)
Definition repr_str (s : string) : string :=
  let quote :=
    if has_char squote s && negb (has_char dquote s) then dquote else squote in
  String quote (escape quote s) ++ String quote EmptyString.

Fixpoint repr (v : json) : string :=
  match v with
  | JNull => "None"
  | JBool true => "True"
  | JBool false => "False"
  | JNum text => text
  | JStr s => repr_str s
  | JArr items => "[" ++ PyStr.join ", " (map repr items) ++ "]"
  | JObj fields =>
      "{" ++ PyStr.join ", "
               (map (fun kv => let '(k, x) := kv in repr_str k ++ ": " ++ repr x)
                    fields)
          ++ "}"
  end.

(** [str(v)], which an f-string applies to a field. *)
Definition str (v : json) : string :=
  match v with
  | JStr s => s
  | _ => repr v
  end.

(** [str(e)] of a [KeyError]: the [repr] of the missing key. *)
Definition str_of_key (k : subscript) : string :=
  match k with
  | Key s => repr_str s
  | Idx i => NilEmpty.string_of_uint (Nat.to_uint i)
  end.

End PyRepr.

Fixpoint lookup (k : string) (fields : list (string * json)) : option json :=
  match fields with
  | [] => None
  | (k', v) :: r => if String.eqb k' k then Some v else lookup k r
  end.

(** [v[s]] *)
Definition getitem (v : json) (s : subscript) : result json :=
  match v, s with
  | JObj fields, Key k =>
      match lookup k fields with
      | Some x => inr x
      | None => inl (KeyError s)
      end
  | JObj _, Idx _ => inl (KeyError s)  (* the keys of a JSON object are strings *)
  | JArr items, Idx i =>
      match nth_error items i with
      | Some x => inr x
      | None => inl IndexError
      end
  | JStr str, Idx i =>
      match String.get i str with
      | Some c => inr (JStr (String c EmptyString))
      | None => inl IndexError
      end
  | _, _ => inl TypeError
  end.

(** [v.title()]: only a string has the method. *)
Definition title_method (v : json) : result string :=
  match v with
  | JStr s => inr (PyStr.title s)
  | _ => inl AttributeError
  end.

(** ** The outside world and the effect monad *)

(** A reading of [datetime.now()]: a naive local date and time with its
    microseconds and its fold. *)
Record datetime : Type := {
  year : nat; month : nat; day : nat;
  hour : nat; minute : nat; second : nat;
  microsecond : nat; fold : nat
}.

(** What the program reads of an HTTP response: its status, the text of the
    [HTTPError] that [raise_for_status] builds for it, and what
    [response.json()] returns or raises. *)
Record Response : Type := {
  status_code : nat;
  http_error_text : string;
  json_body : result json
}.

Inductive event : Type :=
| Print (text : string)
| HttpGet (url : string) (params : list (string * option string))
| GenerateContent (prompt : string)
| ClockRead
| Input (prompt : string).

(** The configuration read at start and the three collaborators.  Each
    oracle sees the log so far, so its answers may change over time. *)
Record World : Type := {
  WEATHER_API_KEY : option string;
  requests_get :
    list event -> string -> list (string * option string) -> result Response;
  generate_text : list event -> string -> result string;
  datetime_now : list event -> datetime
}.

Definition M (A : Type) : Type :=
  World -> list event -> result A * list event.

Definition ret {A : Type} (a : A) : M A := fun _ log => (inr a, log).

Definition raise {A : Type} (e : exn) : M A := fun _ log => (inl e, log).

Definition bind {A B : Type} (m : M A) (k : A -> M B) : M B :=
  fun w log =>
    match m w log with
    | (inl e, log') => (inl e, log')
    | (inr a, log') => k a w log'
    end.

Notation "x <- m ;; k" := (bind m (fun x => k))
  (at level 61, m at next level, right associativity).
Notation "m ;; k" := (bind m (fun _ => k))
  (at level 61, right associativity).

Definition lift {A : Type} (r : result A) : M A := fun _ log => (r, log).

(** [try: m  except ...: handler] *)
Definition try_except {A : Type} (m : M A) (handler : exn -> M A) : M A :=
  fun w log =>
    match m w log with
    | (inl e, log') => handler e w log'
    | (inr a, log') => (inr a, log')
    end.

(** Runs [m] and hands back its outcome, raised or returned, as a value. *)
Definition attempt {A : Type} (m : M A) : M (result A) :=
  fun w log => let (r, log') := m w log in (inr r, log').

Definition print (text : string) : M unit :=
  fun _ log => (inr tt, (log ++ [Print text])%list).

Definition get_api_key : M (option string) :=
  fun w log => (inr (WEATHER_API_KEY w), log).

Definition http_get (url : string) (params : list (string * option string))
  : M Response :=
  fun w log => (requests_get w log url params, (log ++ [HttpGet url params])%list).

(** [model.generate_content(prompt).text] *)
Definition generate_content (prompt : string) : M string :=
  fun w log => (generate_text w log prompt, (log ++ [GenerateContent prompt])%list).

Definition now : M datetime :=
  fun w log => (inr (datetime_now w log), (log ++ [ClockRead])%list).

(** [response.raise_for_status()]: an error for the statuses 400..599. *)
Definition raise_for_status (response : Response) : M unit :=
  if (400 <=? status_code response) && (status_code response <? 600)
  then raise (HTTPError (http_error_text response))
  else ret tt.

(** Runs a program from the empty log. *)
Definition run {A : Type} (m : M A) (w : World) : result A * list event :=
  m w [].

(** ** The weather fetcher *)

Definition WEATHER_BASE_URL : string :=
  "https://api.openweathermap.org/data/2.5/weather".

Record weather_info : Type := {
  city : json;
  country : json;
  temperature : json;
  feels_like : json;
  humidity : json;
  description : string;
  wind_speed : json
}.

(** What [get_weather] returns: a dict of fields, or an error text. *)
Inductive weather_data : Type :=
| Reading (info : weather_info)
| ErrorText (message : string).

(** The dict display of [get_weather]; its entries are evaluated in order
    and the first failing subscript raises. *)
Definition read_weather_info (data : json) : result weather_info :=
  let? name := getitem data (Key "name") in
  let? sys := getitem data (Key "sys") in
  let? country := getitem sys (Key "country") in
  let? main1 := getitem data (Key "main") in
  let? temp := getitem main1 (Key "temp") in
  let? main2 := getitem data (Key "main") in
  let? feels := getitem main2 (Key "feels_like") in
  let? main3 := getitem data (Key "main") in
  let? hum := getitem main3 (Key "humidity") in
  let? weather := getitem data (Key "weather") in
  let? first := getitem weather (Idx 0) in
  let? desc := getitem first (Key "description") in
  let? desc_title := title_method desc in
  let? wind := getitem data (Key "wind") in
  let? speed := getitem wind (Key "speed") in
  inr {| city := name; country := country; temperature := temp;
         feels_like := feels; humidity := hum; description := desc_title;
         wind_speed := speed |}.

Definition invalid_key_message : string :=
  "❌ Weather API key is invalid or not activated yet. Please check your API key.".

Definition city_not_found_message (city_name : string) : string :=
  "❌ City '" ++ city_name ++ "' not found. Please check the spelling.".

(** The three [except] clauses.  [response] is the local variable of that
    name, unbound when [requests.get] itself raised.  An exception of another
    class leaves the function. *)
Definition except_clauses (city_name : string) (response : option Response)
    (e : exn) : M weather_data :=
  match e with
  | HTTPError msg =>
      match response with
      | None => raise UnboundLocalError
      | Some r =>
          if status_code r =? 401 then ret (ErrorText invalid_key_message)
          else if status_code r =? 404 then
            ret (ErrorText (city_not_found_message city_name))
          else ret (ErrorText ("❌ Weather API error: " ++ msg))
      end
  | RequestException msg =>
      ret (ErrorText ("❌ Network error fetching weather data: " ++ msg))
  | KeyError k =>
      ret (ErrorText ("❌ Error parsing weather data: " ++ PyRepr.str_of_key k))
  | _ => raise e
  end.

Definition get_weather (city_name : string) : M weather_data :=
  let city_formatted := PyStr.strip city_name in
  key <- get_api_key ;;
  let params :=
    [("q", Some city_formatted); ("appid", key); ("units", Some "metric")] in
  print ("Fetching weather for: " ++ city_formatted) ;;
  got <- attempt (http_get WEATHER_BASE_URL params) ;;
  match got with
  | inl e => except_clauses city_name None e
  | inr response =>
      try_except
        (raise_for_status response ;;
         data <- lift (json_body response) ;;
         info <- lift (read_weather_info data) ;;
         ret (Reading info))
        (except_clauses city_name (Some response))
  end.

(** ** The time provider *)

Definition digit (n : nat) : ascii := ascii_of_nat (48 + n mod 10).

Definition two_digits (n : nat) : string :=
  String (digit (n / 10)) (String (digit n) EmptyString).

Definition four_digits (n : nat) : string :=
  String (digit (n / 1000)) (String (digit (n / 100)) (two_digits n)).

(** [strftime("%Y-%m-%d")], for the years 1000..9999. *)
Definition format_date (t : datetime) : string :=
  four_digits (year t) ++ "-" ++ two_digits (month t) ++ "-"
  ++ two_digits (day t).

(** [strftime("%Y-%m-%d %H:%M:%S")] *)
Definition strftime (t : datetime) : string :=
  format_date t ++ " " ++ two_digits (hour t) ++ ":" ++ two_digits (minute t)
  ++ ":" ++ two_digits (second t).

Definition get_current_time : M string :=
  t <- now ;; ret (strftime t).

(** ** The orchestrator *)

Definition nl : string := String (ascii_of_nat 10) EmptyString.
Definition dq : string := String PyRepr.dquote EmptyString.
Definition indent : string := PyStr.repeat_str " " 12.

Definition clarification_message : string :=
  "I can help you with weather! Please specify a city. For example: 'What's the weather in London?'".

(** The f-string of the weather branch, line by line. *)
Definition weather_context (info : weather_info) (question : string) : string :=
  nl
  ++ indent ++ "Current weather data for " ++ PyRepr.str (city info) ++ ", "
     ++ PyRepr.str (country info) ++ ":" ++ nl
  ++ indent ++ "- Temperature: " ++ PyRepr.str (temperature info)
     ++ "°C (feels like " ++ PyRepr.str (feels_like info) ++ "°C)" ++ nl
  ++ indent ++ "- Condition: " ++ description info ++ nl
  ++ indent ++ "- Humidity: " ++ PyRepr.str (humidity info) ++ "%" ++ nl
  ++ indent ++ "- Wind speed: " ++ PyRepr.str (wind_speed info) ++ " m/s" ++ nl
  ++ indent ++ nl
  ++ indent
     ++ "Present this weather information in a conversational way to answer the user's question: "
     ++ dq ++ question ++ dq ++ nl
  ++ indent.

Definition time_context (current_time question : string) : string :=
  "Current date and time: " ++ current_time
  ++ ". Answer the user's question: '" ++ question ++ "'".

(** [not city]: [None] and the empty string are false. *)
Definition falsy (city : option string) : bool :=
  match city with
  | None => true
  | Some EmptyString => true
  | Some _ => false
  end.

Definition ask_ai_with_tools (question : string) : M string :=
  let intent := detect_intent question in
  if String.eqb intent "weather" then
    let city := extract_city_from_question question in
    if falsy city then ret clarification_message
    else
      data <- get_weather (match city with Some c => c | None => "" end) ;;
      match data with
      | Reading info => generate_content (weather_context info question)
      | ErrorText message => ret message
      end
  else if String.eqb intent "time" then
    current_time <- get_current_time ;;
    generate_content (time_context current_time question)
  else
    generate_content question.

(** ** The entry point *)

Definition banner : list string :=
  [ "Testing Enhanced AI with Tools...";
    "Available tools: Weather data, Current time";
    "Example questions:";
    "- What's the weather in London";
    "- Weather for New York";
    "- What time is it";
    "- Regular questions still work too!";
    PyStr.repeat_str "-" 50 ].

Fixpoint print_all (lines : list string) : M unit :=
  match lines with
  | [] => ret tt
  | l :: r => print l ;; print_all r
  end.

Definition key_warning : list string :=
  [ "⚠️  Weather API key not found. Add OPENWEATHER_API_KEY to your .env file";
    "⚠️  Get your free API key from: https://openweathermap.org/api" ].

(** Everything the main block does before the chat loop. *)
Definition startup : M unit :=
  print_all banner ;;
  key <- get_api_key ;;
  (if falsy key then print_all key_warning
   else
     print ("✅ Weather API key loaded: "
            ++ PyStr.take 8 (match key with Some k => k | None => "" end)
            ++ "...") ;;
     print "Testing weather feature..." ;;
     weather_response <- ask_ai_with_tools "Weather in London" ;;
     print ("AI: " ++ weather_response ++ nl)) ;;
  print "Testing time feature..." ;;
  time_response <- ask_ai_with_tools "What time is it" ;;
  print ("AI: " ++ time_response ++ nl).

(** [input(prompt)] on the lines left on standard input; the end of the
    input raises. *)
Definition input (prompt : string) (stdin : list string) : M string :=
  fun _ log =>
    (match stdin with [] => inl EOFError | line :: _ => inr line end,
     (log ++ [Input prompt])%list).

(** The [while True] loop: each turn takes one line of standard input. *)
Fixpoint chat_loop (stdin : list string) : M unit :=
  match stdin with
  | [] => input "You: " [] ;; ret tt
  | _ :: rest =>
      user_input <- input "You: " stdin ;;
      if PyStr.list_in (PyStr.lower user_input) ["quit"; "exit"; "bye"]
      then print "Goodbye!"
      else
        response <- ask_ai_with_tools user_input ;;
        print ("AI: " ++ response) ;;
        print "" ;;
        chat_loop rest
  end.

Definition main (stdin : list string) : M unit :=
  startup ;;
  print "Chat with Enhanced AI (type 'quit' to exit):" ;;
  print "💡 Tip: Try questions like 'weather in Paris' or 'what time is it'" ;;
  print "" ;;
  chat_loop stdin.

(** ** Sample worlds *)

Definition sample_time : datetime :=
  {| year := 2026; month := 11; day := 3; hour := 9; minute := 5; second := 0;
     microsecond := 4321; fold := 0 |}.

Definition london_body : json :=
  JObj [ ("name", JStr "London");
         ("sys", JObj [("country", JStr "GB")]);
         ("main", JObj [("temp", JNum "11.5"); ("feels_like", JNum "10.2");
                        ("humidity", JNum "81")]);
         ("weather", JArr [JObj [("description", JStr "light rain")]]);
         ("wind", JObj [("speed", JNum "4.1")]) ].

(** A world whose weather provider answers every request with [response]
    and whose model answers every prompt with [reply]. *)
Definition world_with (key : option string) (response : result Response)
    (reply : result string) : World :=
  {| WEATHER_API_KEY := key;
     requests_get := fun _ _ _ => response;
     generate_text := fun _ _ => reply;
     datetime_now := fun _ => sample_time |}.

Definition ok_response (body : json) : Response :=
  {| status_code := 200; http_error_text := ""; json_body := inr body |}.

Definition error_response (status : nat) (text : string) : Response :=
  {| status_code := status; http_error_text := text;
     json_body := inr (JObj [("cod", JNum (NilEmpty.string_of_uint (Nat.to_uint status)))]) |}.

Definition sample_world : World :=
  world_with (Some "0123456789abcdef") (inr (ok_response london_body))
             (inr "It is mild in London.").

Definition no_key_world : World :=
  world_with None
             (inr (error_response 401 "401 Client Error: Unauthorized for url: https://api.openweathermap.org/data/2.5/weather"))
             (inr "It is 09:05.").

Definition not_found_world : World :=
  world_with (Some "0123456789abcdef")
             (inr (error_response 404 "404 Client Error: Not Found for url: https://api.openweathermap.org/data/2.5/weather"))
             (inr "Hello.").

(** The weather list of the body is empty. *)
Definition empty_weather_body : json :=
  JObj [ ("name", JStr "London");
         ("sys", JObj [("country", JStr "GB")]);
         ("main", JObj [("temp", JNum "11.5"); ("feels_like", JNum "10.2");
                        ("humidity", JNum "81")]);
         ("weather", JArr []);
         ("wind", JObj [("speed", JNum "4.1")]) ].

Definition empty_weather_world : World :=
  world_with (Some "0123456789abcdef") (inr (ok_response empty_weather_body))
             (inr "Hello.").

(** * The vocabulary of the properties *)

(** [needle] occurs in [text]: the meaning of Python's [needle in text]. *)
Definition occurs_in (needle text : string) : Prop :=
  exists pre post, text = pre ++ needle ++ post.

(** [i] is the position of the first [x] in [xs]: what [xs.index(x)]
    returns. *)
Definition first_occurrence (x : string) (xs : list string) (i : nat) : Prop :=
  nth_error xs i = Some x /\ forall j, j < i -> nth_error xs j <> Some x.

(** The word is more than two characters long and begins with one of the
    letters A..Z. *)
Definition city_like (clean_word : string) : Prop :=
  2 < String.length clean_word
  /\ exists c r, clean_word = String c r /\ 65 <= PyStr.ord c <= 90.

(** What the trigger loop returns at a trigger with words after it. *)
Definition city_after (words : list string) (i : nat) : string :=
  PyStr.title (PyStr.join " " (skipn (i + 1) words)).

(** The query parameters of the request for [city_name]. *)
Definition weather_request (city_name : string) (w : World)
  : list (string * option string) :=
  [("q", Some (PyStr.strip city_name)); ("appid", WEATHER_API_KEY w);
   ("units", Some "metric")].

(** The two events of every call of [get_weather]: the diagnostic line and
    the request. *)
Definition fetch_events (city_name : string) (w : World) : list event :=
  [Print ("Fetching weather for: " ++ PyStr.strip city_name);
   HttpGet WEATHER_BASE_URL (weather_request city_name w)].

(** What the provider answers to that request. *)
Definition provider_answer (city_name : string) (w : World) (log : list event)
  : result Response :=
  requests_get w
    (log ++ [Print ("Fetching weather for: " ++ PyStr.strip city_name)])%list
    WEATHER_BASE_URL (weather_request city_name w).

Definition digit_value (c : ascii) : nat := PyStr.ord c - 48.

Definition is_dash (c : ascii) : bool := PyStr.ord c =? 45.

(** Reads a text of the form YYYY-MM-DD back into year, month and day. *)
Definition parse_date (s : string) : option (nat * nat * nat) :=
  match s with
  | String y1 (String y2 (String y3 (String y4 (String s1
      (String m1 (String m2 (String s2
        (String d1 (String d2 EmptyString))))))))) =>
      if forallb PyStr.isdigit_char [y1; y2; y3; y4; m1; m2; d1; d2]
         && is_dash s1 && is_dash s2
      then Some (1000 * digit_value y1 + 100 * digit_value y2
                 + 10 * digit_value y3 + digit_value y4,
                 10 * digit_value m1 + digit_value m2,
                 10 * digit_value d1 + digit_value d2)
      else None
  | _ => None
  end.

(** A calendar date whose year has four digits. *)
Definition valid_date (t : datetime) : Prop :=
  1000 <= year t < 10 * 1000 /\ 1 <= month t <= 12 /\ 1 <= day t <= 31.

(** The time smoke test from the log [log] on, in closed form. *)
Definition time_smoke_log (w : World) (log : list event) : list event :=
  let log1 := (log ++ [Print "Testing time feature..."])%list in
  let prompt := time_context (strftime (datetime_now w log1)) "What time is it" in
  (log1 ++ [ClockRead; GenerateContent prompt]
   ++ match generate_text w (log1 ++ [ClockRead])%list prompt with
      | inr reply => [Print ("AI: " ++ reply ++ nl)]
      | inl _ => []
      end)%list.

(** The line printed when the weather key is configured. *)
Definition key_loaded_line (key : string) : string :=
  "✅ Weather API key loaded: " ++ PyStr.take 8 key ++ "...".

(** Every character of [s] satisfies [p]. *)
Fixpoint all_chars (p : ascii -> bool) (s : string) : bool :=
  match s with
  | EmptyString => true
  | String c r => p c && all_chars p r
  end.

Definition nonspace (c : ascii) : bool := negb (PyStr.isspace c).

(** A code point of ASCII; a text of such characters is one on which the
    tables of [PyStr] are those of Python. *)
Definition is_ascii (c : ascii) : bool := PyStr.ord c <? 128.

(** A word character or the blank that [join] puts between words. *)
Definition word_or_blank (c : ascii) : bool :=
  PyStr.is_word c || (PyStr.ord c =? 32).

(** A word character that is not an upper-case letter. *)
Definition lower_word (c : ascii) : bool :=
  PyStr.is_word c && negb (PyStr.isupper_char c).

Definition not_upper (c : ascii) : bool := negb (PyStr.isupper_char c).

(** A non-empty string whose characters all satisfy [p]. *)
Definition token (p : ascii -> bool) (w : string) : Prop :=
  w <> "" /\ all_chars p w = true.

Definition starts_nonspace (s : string) : bool :=
  match s with
  | EmptyString => true
  | String c _ => nonspace c
  end.

Fixpoint ends_nonspace (s : string) : bool :=
  match s with
  | EmptyString => true
  | String c r =>
      match r with
      | EmptyString => nonspace c
      | _ => ends_nonspace r
      end
  end.

(** The body of a response has every field that [get_weather] reads, each
    under an object (or, for the description, under the first element of a
    list), with the description a string. *)
Definition body_has (data name country temp feels hum : json) (desc : string)
    (speed : json) : Prop :=
  exists fields sys main first more wind,
    data = JObj fields
    /\ lookup "name" fields = Some name
    /\ lookup "sys" fields = Some (JObj sys)
    /\ lookup "country" sys = Some country
    /\ lookup "main" fields = Some (JObj main)
    /\ lookup "temp" main = Some temp
    /\ lookup "feels_like" main = Some feels
    /\ lookup "humidity" main = Some hum
    /\ lookup "weather" fields = Some (JArr (JObj first :: more))
    /\ lookup "description" first = Some (JStr desc)
    /\ lookup "wind" fields = Some (JObj wind)
    /\ lookup "speed" wind = Some speed.


(** The exception is one that a subscript or a method call on parsed JSON
    raises. *)
Definition parse_class (e : exn) : bool :=
  match e with
  | KeyError _ | IndexError | TypeError | AttributeError => true
  | _ => false
  end.

Definition is_request (e : event) : bool :=
  match e with
  | HttpGet _ _ => true
  | _ => false
  end.

Definition is_model_call (e : event) : bool :=
  match e with
  | GenerateContent _ => true
  | _ => false
  end.

(** How many events of [evs] satisfy [p]. *)
Definition count (p : event -> bool) (evs : list event) : nat :=
  length (filter p evs).

(** The test that ends the chat loop. *)
Definition is_quit (line : string) : bool :=
  PyStr.list_in (PyStr.lower line) ["quit"; "exit"; "bye"].

Definition is_colon (c : ascii) : bool := PyStr.ord c =? 58.

(** [s[n:]] *)
Fixpoint drop (n : nat) (s : string) : string :=
  match n, s with
  | S k, String _ r => drop k r
  | _, _ => s
  end.

(** Reads a text of the form HH:MM:SS back into hour, minute and second. *)
Definition parse_clock (s : string) : option (nat * nat * nat) :=
  match s with
  | String h1 (String h2 (String s1 (String m1 (String m2 (String s2
      (String c1 (String c2 EmptyString))))))) =>
      if forallb PyStr.isdigit_char [h1; h2; m1; m2; c1; c2]
         && is_colon s1 && is_colon s2
      then Some (10 * digit_value h1 + digit_value h2,
                 10 * digit_value m1 + digit_value m2,
                 10 * digit_value c1 + digit_value c2)
      else None
  | _ => None
  end.

(** Reads a text of the form YYYY-MM-DD HH:MM:SS back into a clock
    reading on the second. *)
Definition parse_timestamp (s : string) : option datetime :=
  match parse_date (PyStr.take 10 s), String.get 10 s,
        parse_clock (drop 11 s) with
  | Some (y, m, d), Some sep, Some (h, mi, sec) =>
      if PyStr.ord sep =? 32
      then Some {| year := y; month := m; day := d;
                   hour := h; minute := mi; second := sec;
                   microsecond := 0; fold := 0 |}
      else None
  | _, _, _ => None
  end.

(** The reading without what the format leaves out: its microseconds and
    its fold. *)
Definition to_the_second (t : datetime) : datetime :=
  {| year := year t; month := month t; day := day t;
     hour := hour t; minute := minute t; second := second t;
     microsecond := 0; fold := 0 |}.

(** A reading within the ranges of a date and a time of day. *)
Definition valid_datetime (t : datetime) : Prop :=
  valid_date t /\ hour t < 24 /\ minute t < 60 /\ second t < 60.

(** ** The two properties that fail in their unrestricted form *)

(** The time property in its unrestricted form, at one world and question:
    a question containing "time" gets a non-empty answer, the model is
    called, and every prompt it is called with holds the date of the
    clock. *)
Definition time_claim (w : World) (question : string) : Prop :=
  occurs_in "time" question ->
  exists reply log,
    run (ask_ai_with_tools question) w = (inr reply, log)
    /\ reply <> ""
    /\ (exists prompt, In (GenerateContent prompt) log)
    /\ (forall prompt, In (GenerateContent prompt) log ->
                       occurs_in (format_date (datetime_now w [])) prompt).

(** A model that answers with the empty text. *)
Definition silent_world : World :=
  world_with None (inl (RequestException "offline")) (inr "").

(** The start-up property in its unrestricted form, at one world: the
    weather smoke test ran, so its fetch printed the diagnostic line and sent
    the request for London, and the time smoke test ran, so the clock was
    read. *)
Definition smoke_tests_claim (w : World) : Prop :=
  let log := snd (run startup w) in
  (In (Print "Fetching weather for: London") log
   /\ In (HttpGet WEATHER_BASE_URL (weather_request "London" w)) log)
  /\ (In (Print "Testing time feature...") log /\ In ClockRead log).

(** * Properties *)

(** ** The model on sample inputs *)

Example split_example :
  PyStr.split "  What's   the weather in  London?  "
  = ["What's"; "the"; "weather"; "in"; "London?"].
Proof. reflexivity. Qed.

Example title_example : PyStr.title "new york 3rd o'neil" = "New York 3Rd O'Neil".
Proof. reflexivity. Qed.

Example extract_in_paris_today :
  extract_city_from_question "weather in Paris today" = Some "Paris Today".
Proof. reflexivity. Qed.

Example extract_list_order :
  extract_city_from_question "Forecast for Monday in New York?"
  = Some "New York".
Proof. reflexivity. Qed.

Example extract_fallback :
  extract_city_from_question "is the London weather ok?" = Some "London".
Proof. reflexivity. Qed.

Example extract_next_trigger :
  extract_city_from_question "weather for Paris in" = Some "Paris In".
Proof. reflexivity. Qed.

Example detect_examples :
  detect_intent "What's the WEATHER today?" = "weather"
  /\ detect_intent "what is the date" = "time"
  /\ detect_intent "" = "general"
  /\ detect_intent "tell me a joke" = "general".
Proof. repeat split; reflexivity. Qed.

Example repr_examples :
  PyRepr.repr (JObj [("a", JArr [JNum "1"; JNull; JStr "it's"])])
  = String "{" ("'a': [1, None, " ++ String PyRepr.dquote "it's"
                 ++ String PyRepr.dquote "]}").
Proof. reflexivity. Qed.

Example str_of_key_examples :
  PyRepr.str_of_key (Key "name") = "'name'" /\ PyRepr.str_of_key (Idx 0) = "0".
Proof. split; reflexivity. Qed.

Example strftime_example :
  strftime {| year := 2026; month := 11; day := 3;
              hour := 9; minute := 5; second := 0;
              microsecond := 999; fold := 1 |}
  = "2026-11-03 09:05:00".
Proof. reflexivity. Qed.

(** ** Substrings *)

Lemma prefix_iff (needle text : string) :
  String.prefix needle text = true <-> exists post, text = needle ++ post.
Proof.
  revert text; induction needle as [|a n IH]; intros text.
  - destruct text; simpl; split; eauto.
  - destruct text as [|b t]; simpl.
    + split; [discriminate | intros [post H]; discriminate].
    + destruct (ascii_dec a b) as [->|Hne].
      * rewrite IH. split; intros [post H]; exists post.
        -- now rewrite H.
        -- now inversion H.
      * split; [discriminate | intros [post H]; simpl in H; congruence].
Qed.

Lemma contains_unfold (needle text : string) :
  PyStr.contains needle text
  = String.prefix needle text
    || match text with
       | EmptyString => false
       | String _ r => PyStr.contains needle r
       end.
Proof. destruct text; reflexivity. Qed.

Lemma contains_iff (needle text : string) :
  PyStr.contains needle text = true <-> occurs_in needle text.
Proof.
  unfold occurs_in.
  induction text as [|c t IH]; rewrite contains_unfold, orb_true_iff, prefix_iff.
  - split.
    + intros [[post H]|H]; [|discriminate]. now exists "", post.
    + intros [pre [post H]]. left. destruct pre; simpl in H.
      * now exists post.
      * discriminate.
  - rewrite IH. split.
    + intros [[post H]|[pre [post H]]].
      * now exists "", post.
      * exists (String c pre), post. simpl. now rewrite H.
    + intros [pre [post H]]. destruct pre as [|c' pre]; simpl in H.
      * left. now exists post.
      * right. inversion H. now exists pre, post.
Qed.

Lemma contains_false_iff (needle text : string) :
  PyStr.contains needle text = false <-> ~ occurs_in needle text.
Proof.
  rewrite <- contains_iff. destruct (PyStr.contains needle text); split;
    congruence.
Qed.

Lemma any_in_iff (keywords : list string) (text : string) :
  any_in keywords text = true
  <-> exists k, In k keywords /\ occurs_in k text.
Proof.
  unfold any_in. rewrite existsb_exists.
  split; intros [k [Hin H]]; exists k; split; trivial; now apply contains_iff.
Qed.

Lemma any_in_false_iff (keywords : list string) (text : string) :
  any_in keywords text = false
  <-> forall k, In k keywords -> ~ occurs_in k text.
Proof.
  split.
  - intros H k Hin Hocc.
    assert (any_in keywords text = true) by (apply any_in_iff; eauto).
    congruence.
  - intros H. destruct (any_in keywords text) eqn:E; trivial.
    apply any_in_iff in E. destruct E as [k [Hin Hocc]].
    now destruct (H k Hin).
Qed.

Lemma append_assoc (s t u : string) : (s ++ t) ++ u = s ++ t ++ u.
Proof. induction s as [|c s IH]; simpl; [reflexivity | now rewrite IH]. Qed.

Lemma map_chars_app (f : ascii -> ascii) (s t : string) :
  PyStr.map_chars f (s ++ t) = PyStr.map_chars f s ++ PyStr.map_chars f t.
Proof. induction s as [|c s IH]; simpl; [reflexivity | now rewrite IH]. Qed.

(** A lower-case keyword of the question is still there after [lower]. *)
Lemma occurs_in_lower (needle text : string) :
  PyStr.lower needle = needle ->
  occurs_in needle text -> occurs_in needle (PyStr.lower text).
Proof.
  intros Hfix [pre [post ->]]. unfold PyStr.lower in *.
  exists (PyStr.map_chars PyStr.lower_char pre),
         (PyStr.map_chars PyStr.lower_char post).
  now rewrite !map_chars_app, Hfix.
Qed.

(** ** The intent classifier *)

Lemma detect_intent_time (question : string) :
  any_in weather_keywords (PyStr.lower question) = false ->
  any_in time_keywords (PyStr.lower question) = true ->
  detect_intent question = "time".
Proof. intros Hw Ht. unfold detect_intent. now rewrite Hw, Ht. Qed.

(** C2: on every question [detect_intent] answers "weather" when the
    lower-cased text has a weather keyword as a substring, otherwise "time"
    when it has a time keyword as a substring, and otherwise "general", which
    is also its answer on the empty string. *)
Theorem detect_intent_cases (question : string) :
  ((exists k, In k weather_keywords /\ occurs_in k (PyStr.lower question)) ->
   detect_intent question = "weather")
  /\ ((forall k, In k weather_keywords -> ~ occurs_in k (PyStr.lower question)) ->
      (exists k, In k time_keywords /\ occurs_in k (PyStr.lower question)) ->
      detect_intent question = "time")
  /\ ((forall k, In k weather_keywords -> ~ occurs_in k (PyStr.lower question)) ->
      (forall k, In k time_keywords -> ~ occurs_in k (PyStr.lower question)) ->
      detect_intent question = "general")
  /\ detect_intent "" = "general".
Proof.
  unfold detect_intent. repeat split.
  - intros H. apply any_in_iff in H. now rewrite H.
  - intros Hw Ht. apply any_in_false_iff in Hw. apply any_in_iff in Ht.
    now rewrite Hw, Ht.
  - intros Hw Ht. apply any_in_false_iff in Hw. apply any_in_false_iff in Ht.
    now rewrite Hw, Ht.
Qed.

(** The three answers are the only ones. *)
Lemma detect_intent_range (question : string) :
  detect_intent question = "weather" \/ detect_intent question = "time"
  \/ detect_intent question = "general".
Proof.
  unfold detect_intent.
  destruct (any_in weather_keywords _); auto.
  destruct (any_in time_keywords _); auto.
Qed.

Lemma detect_intent_cases_witness :
  detect_intent "Will it RAIN at lunch time?" = "weather"
  /\ detect_intent "What's the date" = "time"
  /\ detect_intent "tell me a joke" = "general".
Proof.
  split; [|split].
  - apply (proj1 (detect_intent_cases "Will it RAIN at lunch time?")).
    exists "rain". split; [simpl; tauto|].
    now exists "will it ", " at lunch time?".
  - apply (proj1 (proj2 (detect_intent_cases "What's the date"))).
    + apply any_in_false_iff. reflexivity.
    + exists "date". split; [simpl; tauto|]. now exists "what's the ", "".
  - apply (proj1 (proj2 (proj2 (detect_intent_cases "tell me a joke")))).
    + apply any_in_false_iff. reflexivity.
    + apply any_in_false_iff. reflexivity.
Defined.

(** ** The city extractor *)

Lemma list_in_iff (x : string) (xs : list string) :
  PyStr.list_in x xs = true <-> In x xs.
Proof.
  unfold PyStr.list_in. rewrite existsb_exists. split.
  - intros [y [Hin Heq]]. apply String.eqb_eq in Heq. now subst.
  - intros Hin. exists x. split; trivial. apply String.eqb_refl.
Qed.

Lemma list_in_false (x : string) (xs : list string) :
  ~ In x xs -> PyStr.list_in x xs = false.
Proof.
  intros H. destruct (PyStr.list_in x xs) eqn:E; trivial.
  now apply list_in_iff in E.
Qed.

Lemma first_occurrence_In (x : string) (xs : list string) (i : nat) :
  first_occurrence x xs i -> In x xs.
Proof. intros [H _]. eapply nth_error_In, H. Qed.

Lemma index_first_occurrence (x : string) (xs : list string) (i : nat) :
  first_occurrence x xs i -> PyStr.index x xs = Some i.
Proof.
  revert i; induction xs as [|y r IH]; intros i [Hnth Hbefore].
  - destruct i; discriminate.
  - destruct i as [|i]; simpl in *.
    + injection Hnth as ->. now rewrite String.eqb_refl.
    + assert (Hy : y <> x).
      { intros ->. now apply (Hbefore 0); [lia|]. }
      apply String.eqb_neq in Hy. rewrite Hy.
      rewrite (IH i); trivial. split; trivial.
      intros j Hj. apply (Hbefore (S j)). lia.
Qed.

Lemma index_is_first_occurrence (x : string) (xs : list string) (i : nat) :
  PyStr.index x xs = Some i -> first_occurrence x xs i.
Proof.
  revert i; induction xs as [|y r IH]; intros i H; simpl in H.
  - discriminate.
  - destruct (String.eqb y x) eqn:E.
    + injection H as <-. apply String.eqb_eq in E. subst. split; trivial.
      intros j Hj; lia.
    + destruct (PyStr.index x r) as [k|]; [|discriminate].
      injection H as <-. destruct (IH k eq_refl) as [Hnth Hbefore].
      split; trivial. intros [|j] Hj; simpl.
      * apply String.eqb_neq in E. congruence.
      * apply Hbefore. lia.
Qed.

Section ScanTriggers.

Variable words : list string.

Lemma scan_triggers_absent (trigger : string) (rest : list string) :
  ~ In trigger words ->
  scan_triggers (trigger :: rest) words = scan_triggers rest words.
Proof. intros H. simpl. now rewrite list_in_false. Qed.

Lemma scan_triggers_found (trigger : string) (rest : list string) (i : nat) :
  first_occurrence trigger words i ->
  i + 1 < length words ->
  scan_triggers (trigger :: rest) words = Some (city_after words i).
Proof.
  intros Hfirst Hlt. simpl.
  rewrite (proj2 (list_in_iff _ _) (first_occurrence_In _ _ _ Hfirst)).
  rewrite (index_first_occurrence _ _ _ Hfirst).
  apply Nat.ltb_lt in Hlt. now rewrite Hlt.
Qed.

Lemma scan_triggers_trailing (trigger : string) (rest : list string) (i : nat) :
  first_occurrence trigger words i ->
  i + 1 = length words ->
  scan_triggers (trigger :: rest) words = scan_triggers rest words.
Proof.
  intros Hfirst Hlast. simpl.
  rewrite (proj2 (list_in_iff _ _) (first_occurrence_In _ _ _ Hfirst)).
  rewrite (index_first_occurrence _ _ _ Hfirst).
  assert (Hge : (i + 1 <? length words) = false) by (apply Nat.ltb_ge; lia).
  now rewrite Hge.
Qed.

Lemma scan_triggers_skip_absent (before rest : list string) :
  Forall (fun t => ~ In t words) before ->
  scan_triggers (before ++ rest) words = scan_triggers rest words.
Proof.
  induction 1 as [|t before Ht _ IH]; [reflexivity|].
  change ((t :: before) ++ rest)%list with (t :: (before ++ rest))%list.
  now rewrite scan_triggers_absent.
Qed.

Lemma scan_triggers_none (triggers : list string) :
  (forall t, In t triggers -> ~ In t words) ->
  scan_triggers triggers words = None.
Proof.
  intros H.
  rewrite <- (app_nil_r triggers).
  apply scan_triggers_skip_absent, Forall_forall, H.
Qed.

(** Every trigger that is present has its first occurrence at the end. *)
Lemma scan_triggers_all_trailing (triggers : list string) :
  (forall t, In t triggers -> In t words ->
             exists i, first_occurrence t words i /\ i + 1 = length words) ->
  scan_triggers triggers words = None.
Proof.
  induction triggers as [|t rest IH]; intros H; [reflexivity|].
  assert (Hrest : scan_triggers rest words = None).
  { apply IH. intros u Hu. apply H. now right. }
  destruct (PyStr.list_in t words) eqn:E.
  - apply list_in_iff in E.
    destruct (H t (or_introl eq_refl) E) as [i [Hfirst Hlast]].
    now rewrite (scan_triggers_trailing _ _ _ Hfirst Hlast).
  - simpl. now rewrite E.
Qed.

End ScanTriggers.

Lemma looks_like_city_iff (clean_word : string) :
  looks_like_city clean_word = true <-> city_like clean_word.
Proof.
  unfold looks_like_city, city_like. destruct clean_word as [|c r].
  - split; [discriminate|]. intros [_ [c [r [H _]]]]. discriminate.
  - unfold PyStr.isupper_char, PyStr.between.
    rewrite !andb_true_iff, !Nat.leb_le, Nat.ltb_lt. split.
    + intros [Hc Hlen]. split; trivial. now exists c, r.
    + intros [Hlen [c' [r' [Heq Hc]]]]. injection Heq as <- <-. now split.
Qed.

Lemma scan_capitalized_first (before : list string) (word : string)
    (after : list string) :
  Forall (fun w => ~ city_like (PyStr.sub_nonword w)) before ->
  city_like (PyStr.sub_nonword word) ->
  scan_capitalized (before ++ word :: after) = Some (PyStr.sub_nonword word).
Proof.
  intros Hbefore Hword. induction Hbefore as [|w before Hw _ IH]; simpl.
  - apply looks_like_city_iff in Hword. now rewrite Hword.
  - destruct (looks_like_city (PyStr.sub_nonword w)) eqn:E; trivial.
    now apply looks_like_city_iff in E.
Qed.

Lemma scan_capitalized_none (original_words : list string) :
  Forall (fun w => ~ city_like (PyStr.sub_nonword w)) original_words ->
  scan_capitalized original_words = None.
Proof.
  induction 1 as [|w r Hw _ IH]; simpl; trivial.
  destruct (looks_like_city (PyStr.sub_nonword w)) eqn:E; trivial.
  now apply looks_like_city_iff in E.
Qed.

(** C1: when the cleaned word list has a trigger word, the extractor takes
    the first trigger of the list in, for, at that is among the words,
    wherever the triggers stand in the sentence; when a word follows the
    first occurrence of that trigger, the result is the title-cased join of
    all the words after that occurrence. *)
Theorem extract_city_trigger_list_order
    (question : string) (before : list string) (trigger : string)
    (after : list string) (i : nat) :
  trigger_words = (before ++ trigger :: after)%list ->
  Forall (fun t => ~ In t (clean_words question)) before ->
  first_occurrence trigger (clean_words question) i ->
  i + 1 < length (clean_words question) ->
  extract_city_from_question question
  = Some (PyStr.title
            (PyStr.join " " (skipn (i + 1) (clean_words question)))).
Proof.
  intros Hlist Hbefore Hfirst Hlt. unfold extract_city_from_question.
  rewrite Hlist, (scan_triggers_skip_absent _ _ _ Hbefore).
  now rewrite (scan_triggers_found _ _ _ _ Hfirst Hlt).
Qed.

Lemma extract_city_trigger_list_order_witness :
  extract_city_from_question "Forecast for Monday in New York today?"
  = Some "New York Today".
Proof.
  apply (extract_city_trigger_list_order
           "Forecast for Monday in New York today?" [] "in" ["for"; "at"] 3).
  - reflexivity.
  - constructor.
  - apply index_is_first_occurrence. reflexivity.
  - simpl. lia.
Defined.

(** C8: when the cleaned word list has none of the trigger words, the
    extractor returns the first whitespace token of the original question
    whose punctuation-stripped form is longer than two characters and begins
    with an upper-case letter, in its stripped form, and nothing when the
    question has no such token. *)
Theorem extract_city_capitalized_fallback (question : string) :
  (forall t, In t trigger_words -> ~ In t (clean_words question)) ->
  (forall before word after,
      PyStr.split question = (before ++ word :: after)%list ->
      Forall (fun w => ~ city_like (PyStr.sub_nonword w)) before ->
      city_like (PyStr.sub_nonword word) ->
      extract_city_from_question question = Some (PyStr.sub_nonword word))
  /\ (Forall (fun w => ~ city_like (PyStr.sub_nonword w)) (PyStr.split question) ->
      extract_city_from_question question = None).
Proof.
  intros Hnone. unfold extract_city_from_question.
  rewrite (scan_triggers_none _ _ Hnone). split.
  - intros before word after Hsplit Hbefore Hword.
    rewrite Hsplit. now apply scan_capitalized_first.
  - apply scan_capitalized_none.
Qed.

Lemma list_in_false_not_In (x : string) (xs : list string) :
  PyStr.list_in x xs = false -> ~ In x xs.
Proof. intros H Hin. apply list_in_iff in Hin. congruence. Qed.

Lemma not_city_like (clean_word : string) :
  looks_like_city clean_word = false -> ~ city_like clean_word.
Proof. intros H Hc. apply looks_like_city_iff in Hc. congruence. Qed.

(** No trigger word among the cleaned words, decided by evaluation. *)
Lemma no_trigger_by_evaluation (question : string) :
  forallb (fun t => negb (PyStr.list_in t (clean_words question))) trigger_words
  = true ->
  forall t, In t trigger_words -> ~ In t (clean_words question).
Proof.
  intros H t Ht. rewrite forallb_forall in H. specialize (H t Ht).
  apply list_in_false_not_In. now destruct (PyStr.list_in t _).
Qed.

Lemma extract_city_capitalized_fallback_witness :
  extract_city_from_question "Is London, UK sunny?" = Some "London"
  /\ extract_city_from_question "what's the weather" = None.
Proof.
  split.
  - apply (proj1 (extract_city_capitalized_fallback "Is London, UK sunny?"
                    (no_trigger_by_evaluation "Is London, UK sunny?" eq_refl))
             ["Is"] "London," ["UK"; "sunny?"]).
    + reflexivity.
    + constructor; [apply not_city_like; reflexivity | constructor].
    + apply looks_like_city_iff. reflexivity.
  - apply (proj2 (extract_city_capitalized_fallback "what's the weather"
                    (no_trigger_by_evaluation "what's the weather" eq_refl))).
    repeat (constructor; [apply not_city_like; reflexivity|]). constructor.
Defined.

(** C10: a trigger whose first occurrence is the last cleaned word yields no
    city and no absence of its own: the loop goes on with the remaining
    triggers, and when every present trigger is in that position the result
    is that of the capitalization fallback.  So "What is the weather in"
    gives "What". *)
Theorem extract_city_trailing_trigger :
  (forall trigger rest words i,
      first_occurrence trigger words i ->
      i + 1 = length words ->
      scan_triggers (trigger :: rest) words = scan_triggers rest words)
  /\ (forall question,
         (forall t, In t trigger_words -> In t (clean_words question) ->
                    exists i, first_occurrence t (clean_words question) i
                              /\ i + 1 = length (clean_words question)) ->
         extract_city_from_question question
         = scan_capitalized (PyStr.split question))
  /\ extract_city_from_question "What is the weather in" = Some "What".
Proof.
  split; [|split].
  - intros trigger rest words i. apply scan_triggers_trailing.
  - intros question H. unfold extract_city_from_question.
    now rewrite (scan_triggers_all_trailing _ _ H).
  - reflexivity.
Qed.

Lemma extract_city_trailing_trigger_witness :
  extract_city_from_question "Weather at"
  = scan_capitalized (PyStr.split "Weather at")
  /\ scan_capitalized (PyStr.split "Weather at") = Some "Weather".
Proof.
  split; [|reflexivity].
  apply (proj1 (proj2 extract_city_trailing_trigger) "Weather at").
  intros t Ht Hin. exists 1.
  assert (Hat : t = "at").
  { simpl in Ht. destruct Ht as [<-|[<-|[<-|[]]]]; trivial;
      exfalso; revert Hin; apply list_in_false_not_In; reflexivity. }
  subst t. split; [|reflexivity].
  apply index_is_first_occurrence. reflexivity.
Defined.

(** The extractor never returns the empty string. *)

Lemma split_from_nonempty (tok s : string) :
  Forall (fun w => w <> "") (PyStr.split_from tok s).
Proof.
  revert tok; induction s as [|c r IH]; intros tok; simpl.
  - destruct tok; constructor; [discriminate | constructor].
  - destruct (PyStr.isspace c); [|apply IH].
    destruct tok; [apply IH|]. constructor; [discriminate | apply IH].
Qed.

Lemma join_nonempty (sep : string) (parts : list string) :
  parts <> [] -> Forall (fun w => w <> "") parts -> PyStr.join sep parts <> "".
Proof.
  intros Hne Hall. destruct Hall as [|w r Hw _]; [congruence|].
  unfold PyStr.join. simpl. destruct w; [congruence|].
  destruct r; simpl; discriminate.
Qed.

Lemma title_nonempty (s : string) : s <> "" -> PyStr.title s <> "".
Proof. destruct s; [congruence | discriminate]. Qed.

Lemma Forall_skipn_words (P : string -> Prop) (n : nat) (ws : list string) :
  Forall P ws -> Forall P (skipn n ws).
Proof.
  revert ws; induction n as [|n IH]; intros ws H; simpl; trivial.
  destruct H; [constructor | now apply IH].
Qed.

Lemma skipn_nonempty (n : nat) (ws : list string) :
  n < length ws -> skipn n ws <> [].
Proof.
  intros Hlt Hnil. assert (H := length_skipn n ws).
  rewrite Hnil in H. simpl in H. lia.
Qed.

Lemma scan_triggers_nonempty (triggers words : list string) (c : string) :
  Forall (fun w => w <> "") words ->
  scan_triggers triggers words = Some c -> c <> "".
Proof.
  intros Hall. induction triggers as [|t rest IH]; simpl; [discriminate|].
  destruct (PyStr.list_in t words); trivial.
  destruct (PyStr.index t words) as [i|]; trivial.
  destruct (i + 1 <? length words) eqn:E; trivial.
  intros H. injection H as <-. apply Nat.ltb_lt in E.
  apply title_nonempty, join_nonempty.
  - now apply skipn_nonempty.
  - now apply Forall_skipn_words.
Qed.

Lemma scan_capitalized_nonempty (original_words : list string) (c : string) :
  scan_capitalized original_words = Some c -> c <> "".
Proof.
  induction original_words as [|w r IH]; simpl; [discriminate|].
  destruct (looks_like_city (PyStr.sub_nonword w)) eqn:E; trivial.
  intros H. injection H as <-. intros Hempty. rewrite Hempty in E.
  discriminate.
Qed.

Lemma extract_city_nonempty (question c : string) :
  extract_city_from_question question = Some c -> c <> "".
Proof.
  unfold extract_city_from_question.
  destruct (scan_triggers trigger_words (clean_words question)) as [c'|] eqn:E.
  - intros H. injection H as <-.
    eapply scan_triggers_nonempty; [|exact E]. apply split_from_nonempty.
  - apply scan_capitalized_nonempty.
Qed.

(** ** The weather fetcher *)

Ltac unfold_fetch :=
  unfold get_weather, except_clauses, try_except, attempt, http_get,
    raise_for_status, get_api_key, print, bind, lift, ret, raise,
    provider_answer, fetch_events, weather_request in *;
  cbn beta iota in *; rewrite <- ?app_assoc in *; cbn [app] in *.

Lemma get_weather_log (city_name : string) (w : World) (log : list event) :
  snd (get_weather city_name w log) = (log ++ fetch_events city_name w)%list.
Proof.
  unfold_fetch.
  destruct (requests_get w _ _ _) as [e|response].
  - destruct e; reflexivity.
  - destruct ((400 <=? status_code response) && (status_code response <? 600)).
    + destruct (status_code response =? 401); [reflexivity|].
      destruct (status_code response =? 404); reflexivity.
    + destruct (json_body response) as [e|data].
      * destruct e; try reflexivity.
        destruct (status_code response =? 401); [reflexivity|].
        destruct (status_code response =? 404); reflexivity.
      * destruct (read_weather_info data) as [e|info]; [|reflexivity].
        destruct e; try reflexivity.
        destruct (status_code response =? 401); [reflexivity|].
        destruct (status_code response =? 404); reflexivity.
Qed.

(** The outcome for a response with an error status. *)
Lemma get_weather_error_status (city_name : string) (w : World)
    (log : list event) (response : Response) :
  provider_answer city_name w log = inr response ->
  400 <= status_code response < 600 ->
  fst (get_weather city_name w log)
  = inr (ErrorText
           (if status_code response =? 401 then invalid_key_message
            else if status_code response =? 404
                 then city_not_found_message city_name
                 else "❌ Weather API error: " ++ http_error_text response)).
Proof.
  intros Hanswer [Hlo Hhi]. unfold_fetch. rewrite Hanswer.
  apply Nat.leb_le in Hlo. apply Nat.ltb_lt in Hhi. rewrite Hlo, Hhi.
  cbn [andb].
  destruct (status_code response =? 401); [reflexivity|].
  destruct (status_code response =? 404); reflexivity.
Qed.

(** The outcome for a response that passes [raise_for_status] and whose body
    parses: a missing key is reported as text, any other failure of the dict
    display leaves the function as an exception. *)
Lemma get_weather_parsed_body (city_name : string) (w : World)
    (log : list event) (response : Response) (data : json) :
  provider_answer city_name w log = inr response ->
  (400 <=? status_code response) && (status_code response <? 600) = false ->
  json_body response = inr data ->
  fst (get_weather city_name w log)
  = match read_weather_info data with
    | inr info => inr (Reading info)
    | inl (KeyError k) =>
        inr (ErrorText ("❌ Error parsing weather data: " ++ PyRepr.str_of_key k))
    | inl (HTTPError msg) =>
        inr (ErrorText ("❌ Weather API error: " ++ msg))
    | inl (RequestException msg) =>
        inr (ErrorText ("❌ Network error fetching weather data: " ++ msg))
    | inl e => inl e
    end.
Proof.
  intros Hanswer Hstatus Hbody. unfold_fetch.
  rewrite Hanswer, Hstatus, Hbody.
  destruct (read_weather_info data) as [e|info]; [|reflexivity].
  destruct e; try reflexivity.
  destruct (status_code response =? 401) eqn:E401.
  - apply Nat.eqb_eq in E401. rewrite E401 in Hstatus. discriminate.
  - destruct (status_code response =? 404) eqn:E404; [|reflexivity].
    apply Nat.eqb_eq in E404. rewrite E404 in Hstatus. discriminate.
Qed.

(** C7: for every city argument, a response of status 404 makes
    [get_weather] return the not-found text, which holds the argument as it
    was passed, and a response of status 401 makes it return the fixed
    invalid-key text, whatever the city. *)
Theorem get_weather_http_errors (w : World) (log : list event)
    (city_name : string) (response : Response) :
  provider_answer city_name w log = inr response ->
  (status_code response = 404 ->
   fst (get_weather city_name w log)
   = inr (ErrorText (city_not_found_message city_name))
   /\ occurs_in city_name (city_not_found_message city_name))
  /\ (status_code response = 401 ->
      fst (get_weather city_name w log) = inr (ErrorText invalid_key_message)).
Proof.
  intros Hanswer. split; intros Hstatus.
  - split.
    + rewrite (get_weather_error_status _ _ _ _ Hanswer); [|lia].
      now rewrite Hstatus.
    + now exists "❌ City '", "' not found. Please check the spelling.".
  - rewrite (get_weather_error_status _ _ _ _ Hanswer); [|lia].
    now rewrite Hstatus.
Qed.

Lemma get_weather_http_errors_witness :
  fst (run (get_weather "  paris ") not_found_world)
  = inr (ErrorText "❌ City '  paris ' not found. Please check the spelling.")
  /\ fst (run (get_weather "  paris ") no_key_world)
     = inr (ErrorText invalid_key_message).
Proof.
  split.
  - apply (proj1 (get_weather_http_errors not_found_world [] "  paris " _
                    eq_refl)).
    reflexivity.
  - apply (proj2 (get_weather_http_errors no_key_world [] "  paris " _
                    eq_refl)).
    reflexivity.
Defined.

(** C4, at a body whose weather list is empty: the status is 200, the
    description is missing, and [get_weather] raises [IndexError] to its
    caller where the claim has a parse-error text returned. *)
Theorem get_weather_empty_weather_list :
  status_code (ok_response empty_weather_body) = 200
  /\ provider_answer "London" empty_weather_world []
     = inr (ok_response empty_weather_body)
  /\ run (get_weather "London") empty_weather_world
     = (inl IndexError, fetch_events "London" empty_weather_world).
Proof. repeat split. Qed.

(** A body that lacks a key of an object is reported as text. *)
Lemma get_weather_missing_key (city_name : string) (w : World)
    (log : list event) (response : Response) (data : json) (k : subscript) :
  provider_answer city_name w log = inr response ->
  status_code response < 400 ->
  json_body response = inr data ->
  read_weather_info data = inl (KeyError k) ->
  fst (get_weather city_name w log)
  = inr (ErrorText ("❌ Error parsing weather data: " ++ PyRepr.str_of_key k)).
Proof.
  intros Hanswer Hstatus Hbody Hread.
  rewrite (get_weather_parsed_body _ _ _ _ data Hanswer); trivial.
  - now rewrite Hread.
  - apply andb_false_iff. left. apply Nat.leb_gt. lia.
Qed.

Example missing_name_is_reported :
  fst (run (get_weather "London")
           (world_with None
              (inr (ok_response (JObj [("sys", JObj [("country", JStr "GB")])])))
              (inr "")))
  = inr (ErrorText "❌ Error parsing weather data: 'name'").
Proof. reflexivity. Qed.

(** ** The orchestrator *)

Lemma ask_weather_run (question : string) (w : World) (log : list event) :
  detect_intent question = "weather" ->
  ask_ai_with_tools question w log
  = match extract_city_from_question question with
    | None | Some EmptyString => (inr clarification_message, log)
    | Some c =>
        match get_weather c w log with
        | (inl e, log') => (inl e, log')
        | (inr (ErrorText message), log') => (inr message, log')
        | (inr (Reading info), log') =>
            generate_content (weather_context info question) w log'
        end
    end.
Proof.
  intros Hintent. unfold ask_ai_with_tools. rewrite Hintent.
  change (("weather" =? "weather")%string) with true. cbn iota.
  destruct (extract_city_from_question question) as [[|a c]|]; try reflexivity.
  cbn [falsy]. unfold bind.
  destruct (get_weather (String a c) w log) as [[e|[info|message]] log'];
    reflexivity.
Qed.

Lemma ask_time_run (question : string) (w : World) (log : list event) :
  detect_intent question = "time" ->
  let prompt := time_context (strftime (datetime_now w log)) question in
  ask_ai_with_tools question w log
  = (generate_text w (log ++ [ClockRead])%list prompt,
     (log ++ [ClockRead; GenerateContent prompt])%list).
Proof.
  intros Hintent. unfold ask_ai_with_tools. rewrite Hintent.
  change (("time" =? "weather")%string) with false.
  change (("time" =? "time")%string) with true. cbn iota.
  unfold get_current_time, now, generate_content, bind, ret. cbn beta iota.
  now rewrite <- app_assoc.
Qed.

Lemma ask_general_run (question : string) (w : World) (log : list event) :
  detect_intent question = "general" ->
  ask_ai_with_tools question w log
  = (generate_text w log question, (log ++ [GenerateContent question])%list).
Proof.
  intros Hintent. unfold ask_ai_with_tools. rewrite Hintent. reflexivity.
Qed.

(** C5: a weather question from which no city is extracted is answered with
    the fixed clarification text, and the log is left as it was: no request
    to the weather provider and no call of the language model. *)
Theorem ask_weather_without_city (w : World) (log : list event)
    (question : string) :
  detect_intent question = "weather" ->
  extract_city_from_question question = None ->
  ask_ai_with_tools question w log = (inr clarification_message, log).
Proof.
  intros Hintent Hcity. rewrite (ask_weather_run _ _ _ Hintent).
  now rewrite Hcity.
Qed.

Lemma ask_weather_without_city_witness :
  run (ask_ai_with_tools "what's the weather") sample_world
  = (inr clarification_message, []).
Proof.
  apply (ask_weather_without_city sample_world [] "what's the weather");
    reflexivity.
Defined.

(** C6: for a weather question with an extracted city, an error text from
    [get_weather] is returned as it is; the events of the call are the two
    of the fetch, and no call of the language model is among them. *)
Theorem ask_weather_error_verbatim (w : World) (log log' : list event)
    (question c message : string) :
  detect_intent question = "weather" ->
  extract_city_from_question question = Some c ->
  get_weather c w log = (inr (ErrorText message), log') ->
  ask_ai_with_tools question w log = (inr message, log')
  /\ log' = (log ++ fetch_events c w)%list
  /\ forall prompt, ~ In (GenerateContent prompt) (fetch_events c w).
Proof.
  intros Hintent Hcity Hfetch. split; [|split].
  - rewrite (ask_weather_run _ _ _ Hintent), Hcity.
    destruct c as [|a c]; [now apply extract_city_nonempty in Hcity|].
    now rewrite Hfetch.
  - rewrite <- (get_weather_log c w log). now rewrite Hfetch.
  - intros prompt [H|[H|[]]]; discriminate.
Qed.

Lemma ask_weather_error_verbatim_witness :
  run (ask_ai_with_tools "Weather in atlantis") not_found_world
  = (inr "❌ City 'Atlantis' not found. Please check the spelling.",
     fetch_events "Atlantis" not_found_world).
Proof.
  apply (proj1 (ask_weather_error_verbatim not_found_world [] _
                  "Weather in atlantis" "Atlantis" _
                  eq_refl eq_refl eq_refl)).
Defined.

(** ** The time branch *)

Lemma ord_digit (n : nat) : PyStr.ord (digit n) = 48 + n mod 10.
Proof.
  unfold PyStr.ord, digit. apply nat_ascii_embedding.
  assert (n mod 10 < 10) by (apply Nat.mod_upper_bound; lia). lia.
Qed.

Lemma isdigit_digit (n : nat) : PyStr.isdigit_char (digit n) = true.
Proof.
  unfold PyStr.isdigit_char, PyStr.between. rewrite ord_digit.
  assert (n mod 10 < 10) by (apply Nat.mod_upper_bound; lia).
  apply andb_true_iff. split; apply Nat.leb_le; lia.
Qed.

Lemma digit_value_digit (n : nat) : digit_value (digit n) = n mod 10.
Proof. unfold digit_value. rewrite ord_digit. lia. Qed.

Lemma two_digits_value (n : nat) :
  n < 100 -> 10 * ((n / 10) mod 10) + n mod 10 = n.
Proof.
  intros H. rewrite (Nat.mod_small (n / 10)).
  - symmetry. apply Nat.div_mod_eq.
  - apply Nat.Div0.div_lt_upper_bound. lia.
Qed.

Lemma four_digits_value (n : nat) :
  n < 10 * 1000 ->
  1000 * ((n / 1000) mod 10) + 100 * ((n / 100) mod 10)
  + 10 * ((n / 10) mod 10) + n mod 10 = n.
Proof.
  intros H.
  assert (H1 := Nat.div_mod_eq n 10).
  assert (H2 := Nat.div_mod_eq (n / 10) 10).
  assert (H3 := Nat.div_mod_eq (n / 100) 10).
  assert (E1 : n / 10 / 10 = n / 100)
    by (rewrite Nat.Div0.div_div; reflexivity).
  assert (E2 : n / 100 / 10 = n / 1000)
    by (rewrite Nat.Div0.div_div; reflexivity).
  rewrite E1 in H2. rewrite E2 in H3.
  assert (H4 : n / 1000 < 10) by (apply Nat.Div0.div_lt_upper_bound; lia).
  rewrite (Nat.mod_small (n / 1000)) by exact H4.
  lia.
Qed.

(** The date part of the timestamp reads back as the date of the clock. *)
Lemma parse_format_date (t : datetime) :
  year t < 10 * 1000 -> month t < 100 -> day t < 100 ->
  parse_date (format_date t) = Some (year t, month t, day t).
Proof.
  intros Hy Hm Hd. unfold format_date, four_digits, two_digits, parse_date.
  cbn [append forallb]. rewrite !isdigit_digit. cbn [andb].
  change (is_dash "-") with true. cbn iota.
  rewrite !digit_value_digit.
  rewrite (four_digits_value _ Hy), (two_digits_value _ Hm),
    (two_digits_value _ Hd).
  reflexivity.
Qed.

(** C9, refuted as stated: a question with "time" and a weather keyword is
    handled by the weather branch, where either no prompt is built or the
    prompt is the weather context without the date; and in the time branch
    the answer is whatever text the model returns, the empty one included. *)
Lemma time_claim_fails :
  ~ time_claim sample_world "what time will the rain stop"
  /\ ~ time_claim sample_world "weather in Paris at this time"
  /\ ~ time_claim silent_world "What time is it".
Proof.
  split; [|split]; intros H.
  - destruct H as [reply [log [Hrun [_ [[prompt Hin] _]]]]].
    + now exists "what ", " will the rain stop".
    + vm_compute in Hrun. injection Hrun as _ <-. destruct Hin.
  - destruct H as [reply [log [Hrun [_ [_ Hall]]]]].
    + now exists "weather in Paris at this ", "".
    + assert (Hlog : In (GenerateContent
                           (weather_context
                              {| city := JStr "London"; country := JStr "GB";
                                 temperature := JNum "11.5";
                                 feels_like := JNum "10.2";
                                 humidity := JNum "81";
                                 description := "Light Rain";
                                 wind_speed := JNum "4.1" |}
                              "weather in Paris at this time")) log).
      { assert (E : snd (run (ask_ai_with_tools "weather in Paris at this time")
                             sample_world) = log) by now rewrite Hrun.
        rewrite <- E. right. right. left. reflexivity. }
      apply Hall in Hlog. revert Hlog. apply contains_false_iff.
      vm_compute. reflexivity.
  - destruct H as [reply [log [Hrun [Hne _]]]].
    + now exists "What ", " is it".
    + apply Hne.
      assert (E : fst (run (ask_ai_with_tools "What time is it") silent_world)
                  = inr reply) by now rewrite Hrun.
      vm_compute in E. now injection E as <-.
Qed.

(** C9, as the code has it: a question that contains "time" and, lower-cased,
    none of the weather keywords is answered through one reading of the
    clock and one call of the model, whether that call returns or raises.
    The prompt of the call is the time context, which holds the date of the
    clock as YYYY-MM-DD, and the answer is the outcome of the call: the text
    the model returns, as it is. *)
Theorem ask_time_question (w : World) (log : list event) (question : string) :
  occurs_in "time" question ->
  (forall k, In k weather_keywords -> ~ occurs_in k (PyStr.lower question)) ->
  ask_ai_with_tools question w log
  = (generate_text w (log ++ [ClockRead])%list
       (time_context (strftime (datetime_now w log)) question),
     (log ++ [ClockRead;
              GenerateContent
                (time_context (strftime (datetime_now w log)) question)])%list)
  /\ occurs_in (format_date (datetime_now w log))
       (time_context (strftime (datetime_now w log)) question)
  /\ (valid_date (datetime_now w log) ->
      parse_date (format_date (datetime_now w log))
      = Some (year (datetime_now w log), month (datetime_now w log),
              day (datetime_now w log)))
  /\ (forall reply,
         generate_text w (log ++ [ClockRead])%list
           (time_context (strftime (datetime_now w log)) question)
         = inr reply ->
         fst (ask_ai_with_tools question w log) = inr reply).
Proof.
  intros Htime Hweather.
  assert (Hintent : detect_intent question = "time").
  { apply detect_intent_time.
    - now apply any_in_false_iff.
    - apply any_in_iff. exists "time". split; [simpl; tauto|].
      now apply occurs_in_lower. }
  assert (Hrun := ask_time_run question w log Hintent). cbn zeta in Hrun.
  split; [exact Hrun|]. split; [|split].
  - unfold time_context, strftime.
    exists "Current date and time: ".
    eexists. rewrite append_assoc. reflexivity.
  - intros [[_ Hy] [[_ Hm] [_ Hd]]]. apply parse_format_date; lia.
  - intros reply Hreply. now rewrite Hrun, Hreply.
Qed.

Lemma ask_time_question_witness :
  run (ask_ai_with_tools "What time is it") sample_world
  = (inr "It is mild in London.",
     [ClockRead;
      GenerateContent
        "Current date and time: 2026-11-03 09:05:00. Answer the user's question: 'What time is it'"])
  /\ occurs_in "2026-11-03"
       "Current date and time: 2026-11-03 09:05:00. Answer the user's question: 'What time is it'"
  /\ parse_date "2026-11-03" = Some (2026, 11, 3).
Proof.
  destruct (ask_time_question sample_world [] "What time is it")
    as [Hrun [Hocc [Hparse _]]].
  - now exists "What ", " is it".
  - apply any_in_false_iff. reflexivity.
  - split; [exact Hrun|]. split; [exact Hocc|].
    apply Hparse. unfold valid_date. simpl. lia.
Defined.

(** ** The entry point *)

Lemma print_all_run (lines : list string) (w : World) (log : list event) :
  print_all lines w log = (inr tt, (log ++ map Print lines)%list).
Proof.
  revert log; induction lines as [|l r IH]; intros log; simpl.
  - unfold ret. now rewrite app_nil_r.
  - unfold bind, print. rewrite IH, <- app_assoc. reflexivity.
Qed.

Lemma time_smoke_run (w : World) (log : list event) :
  snd ((print "Testing time feature..." ;;
        time_response <- ask_ai_with_tools "What time is it" ;;
        print ("AI: " ++ time_response ++ nl)) w log)
  = time_smoke_log w log.
Proof.
  unfold bind at 1. unfold print at 1. unfold bind at 1.
  rewrite (ask_time_run "What time is it" w _ eq_refl). cbn zeta.
  unfold time_smoke_log. cbn zeta.
  destruct (generate_text w _ _) as [e|reply]; unfold print; cbn [snd].
  - reflexivity.
  - now rewrite <- app_assoc.
Qed.

Lemma startup_without_key (w : World) :
  falsy (WEATHER_API_KEY w) = true ->
  snd (run startup w)
  = time_smoke_log w (map Print banner ++ map Print key_warning)%list.
Proof.
  intros Hkey. unfold run, startup.
  unfold bind at 1. rewrite print_all_run. cbn [app].
  unfold bind at 1. unfold get_api_key at 1. rewrite Hkey.
  unfold bind at 1. rewrite print_all_run.
  apply time_smoke_run.
Qed.

Lemma startup_with_key (w : World) (key : string) :
  WEATHER_API_KEY w = Some key -> key <> "" ->
  snd (run startup w)
  = match ask_ai_with_tools "Weather in London" w
            (map Print banner
             ++ [Print (key_loaded_line key); Print "Testing weather feature..."])%list
    with
    | (inl _, log') => log'
    | (inr reply, log') =>
        time_smoke_log w (log' ++ [Print ("AI: " ++ reply ++ nl)])%list
    end.
Proof.
  intros Hkey Hne. unfold run, startup.
  unfold bind at 1. rewrite print_all_run. cbn [app].
  unfold bind at 1. unfold get_api_key at 1. rewrite Hkey.
  assert (Hfalsy : falsy (Some key) = false) by (destruct key; [congruence | reflexivity]).
  rewrite Hfalsy.
  unfold bind at 1. unfold bind at 1. unfold print at 1.
  unfold bind at 1. unfold print at 1.
  unfold bind at 1. rewrite <- app_assoc. cbn [app].
  fold (key_loaded_line key).
  destruct (ask_ai_with_tools "Weather in London" w _) as [[e|reply] log'].
  - reflexivity.
  - unfold print at 1. apply time_smoke_run.
Qed.

(** The weather smoke test begins with the two events of the fetch. *)
Lemma weather_smoke_begins (w : World) (log : list event) :
  exists rest,
    snd (ask_ai_with_tools "Weather in London" w log)
    = (log ++ fetch_events "London" w ++ rest)%list.
Proof.
  rewrite (ask_weather_run "Weather in London" w log eq_refl).
  change (extract_city_from_question "Weather in London") with (Some "London").
  cbn iota.
  assert (Hlog := get_weather_log "London" w log).
  destruct (get_weather "London" w log) as [[e|[info|message]] log'];
    cbn [snd] in *; subst log'.
  - exists []. now rewrite app_nil_r.
  - unfold generate_content. cbn [snd]. eexists.
    rewrite <- app_assoc. reflexivity.
  - exists []. now rewrite app_nil_r.
Qed.

Lemma time_smoke_log_extends (w : World) (log : list event) :
  exists rest, time_smoke_log w log = (log ++ rest)%list.
Proof.
  unfold time_smoke_log. cbn zeta. eexists. rewrite <- app_assoc. reflexivity.
Qed.

(** C3, refuted as stated: without a weather key the start-up makes no
    weather query. *)
Lemma smoke_tests_claim_fails_without_key : ~ smoke_tests_claim no_key_world.
Proof.
  intros [[Hfetch _] _]. vm_compute in Hfetch.
  repeat (destruct Hfetch as [Hfetch|Hfetch]; [discriminate|]).
  exact Hfetch.
Qed.

(** C3, as the code has it.  Without a weather key (unset or empty) the
    start-up prints the banner, the warning and the instructions, runs the
    time smoke test and sends no request at all: the weather smoke test is
    skipped.  With a key it announces the key and runs the weather smoke
    test, which begins with the fetch for London; when that test returns,
    its answer is printed and the time smoke test follows. *)
Theorem startup_smoke_tests (w : World) :
  (falsy (WEATHER_API_KEY w) = true ->
   snd (run startup w)
   = time_smoke_log w (map Print banner ++ map Print key_warning)%list
   /\ forall url params, ~ In (HttpGet url params) (snd (run startup w)))
  /\ (forall key,
         WEATHER_API_KEY w = Some key -> key <> "" ->
         (exists rest,
             snd (run startup w)
             = (map Print banner
                ++ [Print (key_loaded_line key);
                    Print "Testing weather feature..."]
                ++ fetch_events "London" w ++ rest)%list)
         /\ (forall reply log',
                ask_ai_with_tools "Weather in London" w
                  (map Print banner
                   ++ [Print (key_loaded_line key);
                       Print "Testing weather feature..."])%list
                = (inr reply, log') ->
                snd (run startup w)
                = time_smoke_log w
                    (log' ++ [Print ("AI: " ++ reply ++ nl)])%list)).
Proof.
  split.
  - intros Hkey. rewrite (startup_without_key w Hkey). split; [reflexivity|].
    intros url params. unfold time_smoke_log. cbn zeta. intros Hin.
    repeat match type of Hin with
           | In _ (_ ++ _)%list =>
               apply in_app_or in Hin; destruct Hin as [Hin|Hin]
           | In _ (map _ _) =>
               apply in_map_iff in Hin; destruct Hin as [? [Hin _]];
               discriminate
           | In _ (_ :: _) => destruct Hin as [Hin|Hin]; [discriminate|]
           | In _ [] => destruct Hin
           | In _ (match ?x with _ => _ end) => destruct x
           end.
  - intros key Hkey Hne. rewrite (startup_with_key w key Hkey Hne). split.
    + destruct (weather_smoke_begins w
                  (map Print banner
                   ++ [Print (key_loaded_line key);
                       Print "Testing weather feature..."])%list)
        as [rest Hrest].
      destruct (ask_ai_with_tools "Weather in London" w _)
        as [[e|reply] log'] eqn:E; cbn [snd] in Hrest; subst log'.
      * exists rest. now rewrite <- app_assoc.
      * destruct (time_smoke_log_extends w
                    ((((map Print banner
                        ++ [Print (key_loaded_line key);
                            Print "Testing weather feature..."])
                       ++ fetch_events "London" w ++ rest)
                      ++ [Print ("AI: " ++ reply ++ nl)])%list))
          as [rest' Hrest'].
        rewrite Hrest'. eexists. rewrite <- !app_assoc. reflexivity.
    + intros reply log' Hask. now rewrite Hask.
Qed.

Lemma startup_smoke_tests_witness :
  (forall url params,
      ~ In (HttpGet url params) (snd (run startup no_key_world)))
  /\ exists rest,
      snd (run startup sample_world)
      = (map Print banner
         ++ [Print "✅ Weather API key loaded: 01234567...";
             Print "Testing weather feature..."]
         ++ fetch_events "London" sample_world ++ rest)%list.
Proof.
  split.
  - apply (proj1 (startup_smoke_tests no_key_world) eq_refl).
  - apply (proj1 (proj2 (startup_smoke_tests sample_world)
                    "0123456789abcdef" eq_refl
                    ltac:(discriminate))).
Defined.

(** ** Characters of the extracted city *)

Ltac by_ascii_cases c :=
  destruct c as [[|] [|] [|] [|] [|] [|] [|] [|]]; vm_compute; reflexivity.

Lemma isspace_lower_char (c : ascii) :
  PyStr.isspace (PyStr.lower_char c) = PyStr.isspace c.
Proof. by_ascii_cases c. Qed.

Lemma isspace_upper_char (c : ascii) :
  PyStr.isspace (PyStr.upper_char c) = PyStr.isspace c.
Proof. by_ascii_cases c. Qed.

Lemma word_or_blank_lower_char (c : ascii) :
  word_or_blank (PyStr.lower_char c) = word_or_blank c.
Proof. by_ascii_cases c. Qed.

Lemma word_or_blank_upper_char (c : ascii) :
  word_or_blank (PyStr.upper_char c) = word_or_blank c.
Proof. by_ascii_cases c. Qed.

Lemma not_upper_lower_char (c : ascii) : not_upper (PyStr.lower_char c) = true.
Proof. by_ascii_cases c. Qed.

Lemma lower_char_idempotent (c : ascii) :
  PyStr.lower_char (PyStr.lower_char c) = PyStr.lower_char c.
Proof. by_ascii_cases c. Qed.

Lemma lower_char_upper_char (c : ascii) :
  PyStr.lower_char (PyStr.upper_char c) = PyStr.lower_char c.
Proof. by_ascii_cases c. Qed.

Lemma lower_char_not_upper (c : ascii) :
  implb (not_upper c) (Ascii.eqb (PyStr.lower_char c) c) = true.
Proof. by_ascii_cases c. Qed.

Lemma word_is_nonspace (c : ascii) :
  implb (PyStr.is_word c) (nonspace c) = true.
Proof. by_ascii_cases c. Qed.

Lemma word_is_word_or_blank (c : ascii) :
  implb (PyStr.is_word c) (word_or_blank c) = true.
Proof. by_ascii_cases c. Qed.

Lemma upper_is_not_lower_word (c : ascii) :
  implb (PyStr.isupper_char c) (negb (not_upper c)) = true.
Proof. by_ascii_cases c. Qed.

Lemma all_chars_app (p : ascii -> bool) (s t : string) :
  all_chars p (s ++ t) = all_chars p s && all_chars p t.
Proof.
  induction s as [|c s IH]; simpl; [reflexivity|].
  now rewrite IH, andb_assoc.
Qed.

Lemma all_chars_weaken (p q : ascii -> bool) (s : string) :
  (forall c, p c = true -> q c = true) ->
  all_chars p s = true -> all_chars q s = true.
Proof.
  intros Hpq. induction s as [|c s IH]; simpl; trivial.
  rewrite !andb_true_iff. intros [Hc Hs]. split; auto.
Qed.

Lemma all_chars_and (p q : ascii -> bool) (s : string) :
  all_chars p s = true -> all_chars q s = true ->
  all_chars (fun c => p c && q c) s = true.
Proof.
  induction s as [|c s IH]; simpl; trivial.
  rewrite !andb_true_iff. intros [Hp Hs] [Hq Hs']. repeat split; auto.
Qed.

Lemma all_chars_filter_kept (p : ascii -> bool) (s : string) :
  all_chars p (PyStr.filter_chars p s) = true.
Proof.
  induction s as [|c s IH]; simpl; trivial.
  destruct (p c) eqn:E; simpl; trivial. now rewrite E.
Qed.

Lemma all_chars_filter (p q : ascii -> bool) (s : string) :
  all_chars q s = true -> all_chars q (PyStr.filter_chars p s) = true.
Proof.
  induction s as [|c s IH]; simpl; trivial.
  rewrite andb_true_iff. intros [Hc Hs].
  destruct (p c); simpl; auto. rewrite Hc. auto.
Qed.

Lemma all_chars_map (f : ascii -> ascii) (q : ascii -> bool) (s : string) :
  (forall c, q (f c) = true) -> all_chars q (PyStr.map_chars f s) = true.
Proof.
  intros H. induction s as [|c s IH]; simpl; trivial. now rewrite H.
Qed.

Lemma filter_chars_all (p : ascii -> bool) (s : string) :
  all_chars p s = true -> PyStr.filter_chars p s = s.
Proof.
  induction s as [|c s IH]; simpl; trivial.
  rewrite andb_true_iff. intros [Hc Hs]. now rewrite Hc, IH.
Qed.

Lemma map_chars_fixed (f : ascii -> ascii) (s : string) :
  all_chars (fun c => Ascii.eqb (f c) c) s = true -> PyStr.map_chars f s = s.
Proof.
  induction s as [|c s IH]; simpl; trivial.
  rewrite andb_true_iff. intros [Hc Hs]. apply Ascii.eqb_eq in Hc.
  now rewrite Hc, IH.
Qed.

(** The tokens of [split] are non-empty and keep what holds of every
    character of the text; none of their characters is a space. *)
Lemma split_from_tokens (p : ascii -> bool) (s tok : string) :
  all_chars p s = true ->
  all_chars (fun c => p c && nonspace c) tok = true ->
  Forall (token (fun c => p c && nonspace c)) (PyStr.split_from tok s).
Proof.
  revert tok; induction s as [|c r IH]; intros tok Hs Htok; simpl.
  - destruct tok; constructor; [split; [discriminate | trivial] | constructor].
  - simpl in Hs. apply andb_true_iff in Hs. destruct Hs as [Hc Hr].
    destruct (PyStr.isspace c) eqn:E.
    + destruct tok; [now apply IH|].
      constructor; [split; [discriminate | trivial] | now apply IH].
    + apply IH; trivial. rewrite all_chars_app, Htok. simpl.
      unfold nonspace. now rewrite Hc, E.
Qed.

Lemma split_tokens (p : ascii -> bool) (s : string) :
  all_chars p s = true ->
  Forall (token (fun c => p c && nonspace c)) (PyStr.split s).
Proof. intros H. now apply split_from_tokens. Qed.

Lemma token_weaken (p q : ascii -> bool) (ws : list string) :
  (forall c, p c = true -> q c = true) ->
  Forall (token p) ws -> Forall (token q) ws.
Proof.
  intros Hpq H. eapply Forall_impl; [|exact H].
  intros w [Hne Hall]. split; trivial. now apply (all_chars_weaken p q).
Qed.

(** The cleaned words are non-empty runs of word characters without
    upper-case letters. *)
Lemma clean_words_tokens (question : string) :
  Forall (token lower_word) (clean_words question).
Proof.
  unfold clean_words, PyStr.sub_nonword_nonspace, PyStr.lower.
  eapply token_weaken;
    [|apply (split_tokens
               (fun c => (PyStr.is_word c || PyStr.isspace c) && not_upper c))].
  - intros c. unfold lower_word, nonspace, not_upper.
    destruct (PyStr.is_word c), (PyStr.isspace c), (PyStr.isupper_char c);
      simpl; congruence.
  - apply all_chars_and.
    + apply all_chars_filter_kept.
    + apply all_chars_filter, all_chars_map, not_upper_lower_char.
Qed.

(** The tokens of the original question, stripped, are runs of word
    characters. *)
Lemma sub_nonword_word_chars (word : string) :
  all_chars PyStr.is_word (PyStr.sub_nonword word) = true.
Proof. apply all_chars_filter_kept. Qed.

Lemma title_from_all_chars (q : ascii -> bool) (b : bool) (s : string) :
  (forall c, q (PyStr.lower_char c) = q c) ->
  (forall c, q (PyStr.upper_char c) = q c) ->
  all_chars q (PyStr.title_from b s) = all_chars q s.
Proof.
  intros Hl Hu. revert b; induction s as [|c s IH]; intros b; simpl; trivial.
  rewrite IH. destruct b; now rewrite ?Hl, ?Hu.
Qed.

Lemma join_cons (sep w : string) (ws : list string) :
  ws <> [] -> PyStr.join sep (w :: ws) = w ++ sep ++ PyStr.join sep ws.
Proof. destruct ws; [congruence | reflexivity]. Qed.

Lemma join_all_chars (p : ascii -> bool) (sep : string) (ws : list string) :
  all_chars p sep = true ->
  Forall (token p) ws -> all_chars p (PyStr.join sep ws) = true.
Proof.
  intros Hsep. induction 1 as [|w ws [_ Hw] _ IH]; [reflexivity|].
  destruct ws as [|w' ws]; [exact Hw|].
  rewrite join_cons by discriminate.
  now rewrite !all_chars_app, Hw, Hsep, IH.
Qed.

Lemma token_nonempty (p : ascii -> bool) (ws : list string) :
  Forall (token p) ws -> Forall (fun w => w <> "") ws.
Proof. intros H. eapply Forall_impl; [|exact H]. now intros w [Hne _]. Qed.

(** What the trigger loop returns, when it returns, is read at some trigger
    that has a word after it. *)
Lemma scan_triggers_shape (triggers words : list string) (c : string) :
  scan_triggers triggers words = Some c ->
  exists i, i + 1 < length words /\ c = city_after words i.
Proof.
  induction triggers as [|t rest IH]; simpl; [discriminate|].
  destruct (PyStr.list_in t words); trivial.
  destruct (PyStr.index t words) as [i|]; trivial.
  destruct (i + 1 <? length words) eqn:E; trivial.
  intros H. injection H as <-. apply Nat.ltb_lt in E. now exists i.
Qed.

(** What the capitalization loop returns is the stripped form of a token
    that passed the test. *)
Lemma scan_capitalized_shape (original_words : list string) (c : string) :
  scan_capitalized original_words = Some c ->
  exists word, In word original_words /\ c = PyStr.sub_nonword word
               /\ looks_like_city c = true.
Proof.
  induction original_words as [|w r IH]; simpl; [discriminate|].
  destruct (looks_like_city (PyStr.sub_nonword w)) eqn:E.
  - intros H. injection H as <-. exists w. auto.
  - intros H. destruct (IH H) as [word [Hin Hrest]]. exists word. auto.
Qed.

(** The two ways a city is produced. *)
Lemma extract_city_shape (question c : string) :
  extract_city_from_question question = Some c ->
  (exists i, i + 1 < length (clean_words question)
             /\ c = city_after (clean_words question) i)
  \/ (exists word, In word (PyStr.split question)
                   /\ c = PyStr.sub_nonword word /\ looks_like_city c = true).
Proof.
  unfold extract_city_from_question.
  destruct (scan_triggers trigger_words (clean_words question)) as [c'|] eqn:E.
  - intros H. injection H as <-. left. now apply (scan_triggers_shape _ _ _ E).
  - intros H. right. now apply scan_capitalized_shape.
Qed.

Lemma lower_word_is_word_or_blank (c : ascii) :
  lower_word c = true -> word_or_blank c = true.
Proof.
  unfold lower_word. rewrite andb_true_iff. intros [H _].
  assert (Himp := word_is_word_or_blank c). now rewrite H in Himp.
Qed.

Lemma lower_word_is_nonspace (c : ascii) :
  lower_word c = true -> nonspace c = true.
Proof.
  unfold lower_word. rewrite andb_true_iff. intros [H _].
  assert (Himp := word_is_nonspace c). now rewrite H in Himp.
Qed.

Lemma is_word_nonspace (c : ascii) : PyStr.is_word c = true -> nonspace c = true.
Proof. intros H. assert (Himp := word_is_nonspace c). now rewrite H in Himp. Qed.

Lemma is_word_word_or_blank (c : ascii) :
  PyStr.is_word c = true -> word_or_blank c = true.
Proof.
  intros H. assert (Himp := word_is_word_or_blank c). now rewrite H in Himp.
Qed.

Lemma looks_like_city_nonempty (c : string) : looks_like_city c = true -> c <> "".
Proof. destruct c; [discriminate | discriminate]. Qed.

Lemma word_or_blank_is_ascii (c : ascii) :
  implb (word_or_blank c) (is_ascii c) = true.
Proof. by_ascii_cases c. Qed.

(** X1: on a question of ASCII characters, a city returned by the extractor
    is never empty and holds only word characters and blanks, all of them
    ASCII: no punctuation of the question reaches it. *)
Theorem extract_city_word_characters (question c : string) :
  all_chars is_ascii question = true ->
  extract_city_from_question question = Some c ->
  c <> "" /\ all_chars word_or_blank c = true /\ all_chars is_ascii c = true.
Proof.
  intros _ H. split; [now apply (extract_city_nonempty question)|].
  assert (Hwb : all_chars word_or_blank c = true).
  { destruct (extract_city_shape _ _ H) as [[i [Hlt ->]]|[word [_ [-> _]]]].
    - unfold city_after, PyStr.title.
      rewrite title_from_all_chars
        by (intros; auto using word_or_blank_lower_char,
                               word_or_blank_upper_char).
      apply join_all_chars; [reflexivity|].
      apply Forall_skipn_words.
      apply (token_weaken lower_word); [apply lower_word_is_word_or_blank|].
      apply clean_words_tokens.
    - apply (all_chars_weaken PyStr.is_word); [apply is_word_word_or_blank|].
      apply sub_nonword_word_chars. }
  split; trivial.
  apply (all_chars_weaken word_or_blank); trivial.
  intros a Ha. assert (Himp := word_or_blank_is_ascii a). now rewrite Ha in Himp.
Qed.

Lemma extract_city_word_characters_witness :
  "New York Today" <> ""
  /\ all_chars word_or_blank "New York Today" = true
  /\ all_chars is_ascii "New York Today" = true.
Proof.
  apply (extract_city_word_characters
           "Forecast, for Monday... in New York, today?!" "New York Today");
    reflexivity.
Defined.

(** ** The extracted city as the argument of the fetch *)

Lemma lstrip_starts (s : string) :
  starts_nonspace s = true -> PyStr.lstrip s = s.
Proof.
  destruct s as [|c r]; simpl; trivial. unfold nonspace.
  now destruct (PyStr.isspace c).
Qed.

Lemma rstrip_ends (s : string) : ends_nonspace s = true -> PyStr.rstrip s = s.
Proof.
  induction s as [|c r IH]; trivial. intros H.
  destruct r as [|c' r'].
  - simpl in *. unfold nonspace in H. now destruct (PyStr.isspace c).
  - change (PyStr.rstrip (String c (String c' r')))
      with (match PyStr.rstrip (String c' r') with
            | EmptyString =>
                if PyStr.isspace c then EmptyString else String c EmptyString
            | r0 => String c r0
            end).
    now rewrite (IH H).
Qed.

Lemma strip_trimmed (s : string) :
  starts_nonspace s = true -> ends_nonspace s = true -> PyStr.strip s = s.
Proof.
  intros Hs He. unfold PyStr.strip. rewrite (lstrip_starts _ Hs).
  now apply rstrip_ends.
Qed.

Lemma all_nonspace_ends (s : string) :
  all_chars nonspace s = true -> ends_nonspace s = true.
Proof.
  induction s as [|c r IH]; trivial. simpl. rewrite andb_true_iff.
  intros [Hc Hr]. destruct r; auto.
Qed.

Lemma all_nonspace_starts (s : string) :
  all_chars nonspace s = true -> starts_nonspace s = true.
Proof.
  destruct s; trivial. simpl. rewrite andb_true_iff. now intros [Hc _].
Qed.

Lemma ends_nonspace_app (s t : string) :
  t <> "" -> ends_nonspace (s ++ t) = ends_nonspace t.
Proof.
  intros Ht. induction s as [|c s IH]; trivial.
  change (String c s ++ t) with (String c (s ++ t)).
  destruct (s ++ t) eqn:E.
  - destruct s; simpl in E; [congruence | discriminate].
  - rewrite <- IH. reflexivity.
Qed.

Lemma starts_nonspace_app (s t : string) :
  s <> "" -> starts_nonspace (s ++ t) = starts_nonspace s.
Proof. destruct s; [congruence | reflexivity]. Qed.

Lemma join_trimmed (ws : list string) :
  Forall (token nonspace) ws ->
  starts_nonspace (PyStr.join " " ws) = true
  /\ ends_nonspace (PyStr.join " " ws) = true.
Proof.
  induction 1 as [|w ws [Hne Hw] Hws IH]; [split; reflexivity|].
  destruct ws as [|w' ws].
  - split; [now apply all_nonspace_starts | now apply all_nonspace_ends].
  - rewrite join_cons by discriminate. split.
    + rewrite starts_nonspace_app by exact Hne. now apply all_nonspace_starts.
    + rewrite ends_nonspace_app by discriminate.
      assert (Hj : PyStr.join " " (w' :: ws) <> "").
      { apply join_nonempty; [discriminate|].
        now apply (token_nonempty nonspace). }
      change (" " ++ PyStr.join " " (w' :: ws))
        with (String " " (PyStr.join " " (w' :: ws))).
      destruct (PyStr.join " " (w' :: ws)) eqn:E; [congruence|].
      apply IH.
Qed.

Lemma nonspace_title_char (b : bool) (c : ascii) :
  nonspace (if b then PyStr.lower_char c else PyStr.upper_char c) = nonspace c.
Proof.
  unfold nonspace. destruct b;
    now rewrite ?isspace_lower_char, ?isspace_upper_char.
Qed.

Lemma title_from_starts (b : bool) (s : string) :
  starts_nonspace (PyStr.title_from b s) = starts_nonspace s.
Proof. destruct s; simpl; [reflexivity | apply nonspace_title_char]. Qed.

Lemma title_from_ends (b : bool) (s : string) :
  ends_nonspace (PyStr.title_from b s) = ends_nonspace s.
Proof.
  revert b; induction s as [|c r IH]; intros b; trivial.
  destruct r as [|c' r'].
  - simpl. apply nonspace_title_char.
  - change (PyStr.title_from b (String c (String c' r')))
      with (String (if b then PyStr.lower_char c else PyStr.upper_char c)
                   (PyStr.title_from (PyStr.iscased c) (String c' r'))).
    specialize (IH (PyStr.iscased c)).
    destruct (PyStr.title_from (PyStr.iscased c) (String c' r')) eqn:E;
      [discriminate|].
    exact IH.
Qed.

(** A city of the extractor has no whitespace at either end. *)
Lemma extract_city_trimmed (question c : string) :
  extract_city_from_question question = Some c ->
  starts_nonspace c = true /\ ends_nonspace c = true.
Proof.
  intros H.
  destruct (extract_city_shape _ _ H) as [[i [Hlt ->]]|[word [_ [-> _]]]].
  - unfold city_after, PyStr.title.
    rewrite title_from_starts, title_from_ends. apply join_trimmed.
    apply Forall_skipn_words.
    apply (token_weaken lower_word); [apply lower_word_is_nonspace|].
    apply clean_words_tokens.
  - assert (Hall : all_chars nonspace (PyStr.sub_nonword word) = true).
    { apply (all_chars_weaken PyStr.is_word); [apply is_word_nonspace|].
      apply sub_nonword_word_chars. }
    split; [now apply all_nonspace_starts | now apply all_nonspace_ends].
Qed.

(** X2: the [strip] of [get_weather] leaves a city of the extractor as it
    is, so the diagnostic line and the [q] parameter of the request carry
    the extracted city itself. *)
Theorem get_weather_sends_extracted_city (question c : string) (w : World)
    (log : list event) :
  extract_city_from_question question = Some c ->
  PyStr.strip c = c
  /\ snd (get_weather c w log)
     = (log ++ [Print ("Fetching weather for: " ++ c);
                HttpGet WEATHER_BASE_URL
                  [("q", Some c); ("appid", WEATHER_API_KEY w);
                   ("units", Some "metric")]])%list.
Proof.
  intros H. destruct (extract_city_trimmed _ _ H) as [Hs He].
  assert (Hstrip : PyStr.strip c = c) by now apply strip_trimmed.
  split; trivial. rewrite get_weather_log.
  unfold fetch_events, weather_request. now rewrite Hstrip.
Qed.

Lemma get_weather_sends_extracted_city_witness :
  PyStr.strip "New York" = "New York"
  /\ snd (get_weather "New York" sample_world [])
     = [Print "Fetching weather for: New York";
        HttpGet WEATHER_BASE_URL
          [("q", Some "New York"); ("appid", Some "0123456789abcdef");
           ("units", Some "metric")]].
Proof.
  apply (get_weather_sends_extracted_city
           "  what's the weather in   new york ?  " "New York" sample_world []).
  reflexivity.
Defined.

(** X3: a question without an upper-case letter and without a trigger among
    its cleaned words yields no city: the fallback needs a capital. *)
Theorem extract_city_needs_capital (question : string) :
  (forall t, In t trigger_words -> ~ In t (clean_words question)) ->
  all_chars not_upper question = true ->
  extract_city_from_question question = None.
Proof.
  intros Hnone Hlower. unfold extract_city_from_question.
  rewrite (scan_triggers_none _ _ Hnone).
  apply scan_capitalized_none.
  assert (Htok := split_tokens not_upper question Hlower).
  eapply Forall_impl; [|exact Htok].
  intros w [_ Hw]. apply not_city_like.
  assert (Hclean : all_chars not_upper (PyStr.sub_nonword w) = true).
  { apply all_chars_filter.
    apply (all_chars_weaken (fun c => not_upper c && nonspace c)); trivial.
    intros c Hc. now apply andb_true_iff in Hc. }
  destruct (PyStr.sub_nonword w) as [|c r]; trivial.
  simpl in Hclean. apply andb_true_iff in Hclean. destruct Hclean as [Hc _].
  unfold not_upper in Hc. unfold looks_like_city.
  now destruct (PyStr.isupper_char c).
Qed.

Lemma extract_city_needs_capital_witness :
  extract_city_from_question "how is the weather over london, then?" = None.
Proof.
  apply extract_city_needs_capital.
  - apply no_trigger_by_evaluation. reflexivity.
  - reflexivity.
Defined.

(** ** Asking again for an extracted city *)

Lemma append_empty_r (s : string) : s ++ "" = s.
Proof. induction s as [|c s IH]; simpl; [reflexivity | now rewrite IH]. Qed.

Lemma filter_chars_app (p : ascii -> bool) (s t : string) :
  PyStr.filter_chars p (s ++ t)
  = PyStr.filter_chars p s ++ PyStr.filter_chars p t.
Proof.
  induction s as [|c s IH]; simpl; trivial.
  destruct (p c); simpl; now rewrite IH.
Qed.

Lemma split_from_app_nonspace (tok w s : string) :
  all_chars nonspace w = true ->
  PyStr.split_from tok (w ++ s) = PyStr.split_from (tok ++ w) s.
Proof.
  revert tok; induction w as [|c w IH]; intros tok Hw.
  - now rewrite append_empty_r.
  - simpl in Hw. apply andb_true_iff in Hw. destruct Hw as [Hc Hw].
    unfold nonspace in Hc. simpl.
    destruct (PyStr.isspace c); [discriminate|].
    rewrite (IH _ Hw), append_assoc. reflexivity.
Qed.

Lemma split_from_blank (tok s : string) :
  tok <> "" ->
  PyStr.split_from tok (String " " s) = tok :: PyStr.split_from "" s.
Proof. intros H. destruct tok; [congruence | reflexivity]. Qed.

(** [split] undoes [join] on words without whitespace. *)
Lemma split_join (ws : list string) :
  Forall (token nonspace) ws -> PyStr.split (PyStr.join " " ws) = ws.
Proof.
  unfold PyStr.split.
  induction 1 as [|w ws [Hne Hw] Hws IH]; [reflexivity|].
  destruct ws as [|w' ws].
  - change (PyStr.join " " [w]) with w.
    rewrite <- (append_empty_r w) at 1.
    rewrite (split_from_app_nonspace _ _ _ Hw). simpl.
    destruct w; [congruence | reflexivity].
  - rewrite join_cons by discriminate.
    rewrite (split_from_app_nonspace _ _ _ Hw).
    change ("" ++ w) with w.
    change (" " ++ PyStr.join " " (w' :: ws))
      with (String " " (PyStr.join " " (w' :: ws))).
    rewrite (split_from_blank _ _ Hne). now rewrite IH.
Qed.

Lemma lower_title_from (b : bool) (s : string) :
  PyStr.lower (PyStr.title_from b s) = PyStr.lower s.
Proof.
  unfold PyStr.lower. revert b; induction s as [|c s IH]; intros b; simpl;
    trivial.
  rewrite IH. destruct b;
    now rewrite ?lower_char_idempotent, ?lower_char_upper_char.
Qed.

Lemma lower_fixed (s : string) :
  all_chars not_upper s = true -> PyStr.lower s = s.
Proof.
  intros H. apply map_chars_fixed.
  apply (all_chars_weaken not_upper); trivial.
  intros c Hc. assert (Himp := lower_char_not_upper c). now rewrite Hc in Himp.
Qed.

(** The cleaned words of "weather in " followed by the title-cased join of
    clean words are "weather", "in" and those words. *)
Lemma clean_words_weather_in (ws : list string) :
  Forall (token lower_word) ws ->
  clean_words ("weather in " ++ PyStr.title (PyStr.join " " ws))
  = "weather" :: "in" :: ws.
Proof.
  intros Hws. unfold clean_words, PyStr.title.
  assert (Hlower : all_chars not_upper (PyStr.join " " ws) = true).
  { apply join_all_chars; [reflexivity|].
    apply (token_weaken lower_word); trivial.
    intros c Hc. unfold lower_word in Hc. now apply andb_true_iff in Hc. }
  assert (Hkeep : all_chars (fun c => PyStr.is_word c || PyStr.isspace c)
                            (PyStr.join " " ws) = true).
  { apply join_all_chars; [reflexivity|].
    apply (token_weaken lower_word); trivial.
    intros c Hc. unfold lower_word in Hc. apply andb_true_iff in Hc.
    destruct Hc as [Hc _]. now rewrite Hc. }
  unfold PyStr.lower at 1. rewrite map_chars_app.
  fold (PyStr.lower (PyStr.title_from false (PyStr.join " " ws))).
  rewrite lower_title_from, (lower_fixed _ Hlower).
  change (PyStr.map_chars PyStr.lower_char "weather in ") with "weather in ".
  unfold PyStr.sub_nonword_nonspace. rewrite filter_chars_app.
  rewrite (filter_chars_all _ _ Hkeep).
  change (PyStr.filter_chars (fun c => PyStr.is_word c || PyStr.isspace c)
            "weather in ") with "weather in ".
  unfold PyStr.split.
  change ("weather in " ++ PyStr.join " " ws)
    with ("weather" ++ String " " ("in" ++ String " " (PyStr.join " " ws))).
  rewrite split_from_app_nonspace by reflexivity.
  rewrite split_from_blank by discriminate.
  rewrite split_from_app_nonspace by reflexivity.
  rewrite split_from_blank by discriminate.
  fold (PyStr.split (PyStr.join " " ws)).
  rewrite split_join; trivial.
  apply (token_weaken lower_word); trivial. apply lower_word_is_nonspace.
Qed.

(** X4: on a question of ASCII characters, a city found by the trigger loop
    is found again, unchanged, in the question "weather in " followed by
    that city, which is a question of ASCII characters too. *)
Theorem extract_city_round_trip (question c : string) :
  all_chars is_ascii question = true ->
  scan_triggers trigger_words (clean_words question) = Some c ->
  all_chars is_ascii ("weather in " ++ c) = true
  /\ extract_city_from_question ("weather in " ++ c) = Some c.
Proof.
  intros _ H. destruct (scan_triggers_shape _ _ _ H) as [i [Hlt ->]].
  unfold city_after.
  set (ws := skipn (i + 1) (clean_words question)).
  assert (Hws : Forall (token lower_word) ws)
    by apply Forall_skipn_words, clean_words_tokens.
  assert (Hne : ws <> []) by now apply skipn_nonempty.
  split.
  - rewrite all_chars_app. change (all_chars is_ascii "weather in ") with true.
    cbn [andb]. unfold PyStr.title.
    apply (all_chars_weaken word_or_blank).
    + intros a Ha. assert (Himp := word_or_blank_is_ascii a).
      now rewrite Ha in Himp.
    + rewrite title_from_all_chars
        by (intros; auto using word_or_blank_lower_char,
                               word_or_blank_upper_char).
      apply join_all_chars; [reflexivity|].
      apply (token_weaken lower_word); trivial.
      apply lower_word_is_word_or_blank.
  - unfold extract_city_from_question.
    rewrite (clean_words_weather_in ws Hws).
    rewrite (scan_triggers_found _ "in" ["for"; "at"] 1).
    + reflexivity.
    + split; [reflexivity|]. intros [|j] Hj; [discriminate | lia].
    + destruct ws; [congruence | simpl; lia].
Qed.

Lemma extract_city_round_trip_witness :
  all_chars is_ascii "weather in New York Today" = true
  /\ extract_city_from_question "weather in New York Today"
     = Some "New York Today".
Proof.
  apply (extract_city_round_trip "Forecast for Monday in New York today?");
    reflexivity.
Defined.

(** A city of the capitalization fallback need not come back unchanged. *)
Example fallback_city_is_recased :
  extract_city_from_question "Is NYC sunny?" = Some "NYC"
  /\ extract_city_from_question "weather in NYC" = Some "Nyc".
Proof. split; reflexivity. Qed.

(** ** More on the intent classifier *)

Lemma occurs_in_trans (a b c : string) :
  occurs_in a b -> occurs_in b c -> occurs_in a c.
Proof.
  intros [p1 [s1 ->]] [p2 [s2 ->]]. exists (p2 ++ p1), (s1 ++ s2).
  now rewrite !append_assoc.
Qed.

Lemma occurs_in_context (k pre text post : string) :
  occurs_in k text -> occurs_in k (pre ++ text ++ post).
Proof.
  intros [p [s ->]]. exists (pre ++ p), (s ++ post).
  now rewrite !append_assoc.
Qed.

Lemma any_in_context (keywords : list string) (pre text post : string) :
  any_in keywords (PyStr.lower text) = true ->
  any_in keywords (PyStr.lower (pre ++ text ++ post)) = true.
Proof.
  rewrite !any_in_iff. intros [k [Hin Hocc]]. exists k. split; trivial.
  unfold PyStr.lower in *. rewrite !map_chars_app.
  now apply occurs_in_context.
Qed.

(** X5: the intent is "time" exactly when the lower-cased question has no
    weather keyword and has "time", "date" or "today" as a substring; the
    fourth entry of the list, "what's the time", never decides. *)
Theorem detect_intent_time_iff (question : string) :
  detect_intent question = "time"
  <-> (forall k, In k weather_keywords -> ~ occurs_in k (PyStr.lower question))
      /\ (occurs_in "time" (PyStr.lower question)
          \/ occurs_in "date" (PyStr.lower question)
          \/ occurs_in "today" (PyStr.lower question)).
Proof.
  unfold detect_intent. split.
  - destruct (any_in weather_keywords (PyStr.lower question)) eqn:Ew;
      [discriminate|].
    destruct (any_in time_keywords (PyStr.lower question)) eqn:Et;
      [|discriminate].
    intros _. split; [now apply any_in_false_iff|].
    apply any_in_iff in Et. destruct Et as [k [Hin Hocc]].
    simpl in Hin. destruct Hin as [<-|[<-|[<-|[<-|[]]]]]; auto.
    left. apply (occurs_in_trans _ "what's the time"); trivial.
    now exists "what's the ", "".
  - intros [Hw Ht]. apply any_in_false_iff in Hw. rewrite Hw.
    assert (Et : any_in time_keywords (PyStr.lower question) = true).
    { apply any_in_iff. destruct Ht as [H|[H|H]];
        [exists "time" | exists "date" | exists "today"];
        (split; [simpl; tauto | exact H]). }
    now rewrite Et.
Qed.

(** X6: text around a question never lowers its class: a weather question
    stays a weather question inside any longer text, and a time question
    never becomes a general one. *)
Theorem detect_intent_in_context (pre question post : string) :
  (detect_intent question = "weather" ->
   detect_intent (pre ++ question ++ post) = "weather")
  /\ (detect_intent question = "time" ->
      detect_intent (pre ++ question ++ post) <> "general").
Proof.
  unfold detect_intent. split.
  - destruct (any_in weather_keywords (PyStr.lower question)) eqn:Ew.
    + intros _. now rewrite (any_in_context _ pre _ post Ew).
    + destruct (any_in time_keywords (PyStr.lower question)); discriminate.
  - destruct (any_in weather_keywords (PyStr.lower question)); [discriminate|].
    destruct (any_in time_keywords (PyStr.lower question)) eqn:Et;
      [|discriminate].
    intros _. rewrite (any_in_context _ pre _ post Et).
    destruct (any_in weather_keywords _); discriminate.
Qed.

Lemma detect_intent_in_context_witness :
  detect_intent ("Tell me, " ++ "is it sunny" ++ " at this time?") = "weather"
  /\ detect_intent ("So " ++ "what time is it" ++ " in the rain?") <> "general".
Proof.
  split.
  - apply (proj1 (detect_intent_in_context "Tell me, " "is it sunny"
                    " at this time?")).
    reflexivity.
  - apply (proj2 (detect_intent_in_context "So " "what time is it"
                    " in the rain?")).
    reflexivity.
Defined.

(** ** More on the weather fetcher *)

(** X7: whatever the outcome, a call of [get_weather] adds two events to the
    log: the diagnostic line and one GET request to the fixed URL with the
    stripped city, the configured key and metric units.  No clause of the
    function prints or sends anything else. *)
Theorem get_weather_one_request (city_name : string) (w : World)
    (log : list event) :
  snd (get_weather city_name w log)
  = (log ++ [Print ("Fetching weather for: " ++ PyStr.strip city_name);
             HttpGet "https://api.openweathermap.org/data/2.5/weather"
               [("q", Some (PyStr.strip city_name));
                ("appid", WEATHER_API_KEY w);
                ("units", Some "metric")]])%list.
Proof. apply get_weather_log. Qed.

Lemma read_weather_info_body
    (data name country temp feels hum : json) (desc : string) (speed : json) :
  body_has data name country temp feels hum desc speed ->
  read_weather_info data
  = inr {| city := name; country := country; temperature := temp;
           feels_like := feels; humidity := hum;
           description := PyStr.title desc; wind_speed := speed |}.
Proof.
  intros [fields [sys [main [first [more [wind H]]]]]].
  destruct H as (-> & Hn & Hs & Hc & Hm & Ht & Hf & Hh & Hw & Hd & Hwi & Hsp).
  unfold read_weather_info, getitem.
  rewrite Hn, Hs, Hm, Hw, Hwi. cbn [and_then nth_error].
  rewrite Hc, Ht, Hf, Hh, Hd, Hsp. reflexivity.
Qed.

(** X8: a response whose status is not an error status and whose body has
    every field makes [get_weather] return the reading of those fields, the
    description title-cased; whatever else the body holds is ignored. *)
Theorem get_weather_reads_fields (city_name : string) (w : World)
    (log : list event) (response : Response)
    (data name country temp feels hum : json) (desc : string) (speed : json) :
  provider_answer city_name w log = inr response ->
  status_code response < 400 ->
  json_body response = inr data ->
  body_has data name country temp feels hum desc speed ->
  fst (get_weather city_name w log)
  = inr (Reading {| city := name; country := country; temperature := temp;
                    feels_like := feels; humidity := hum;
                    description := PyStr.title desc; wind_speed := speed |}).
Proof.
  intros Hanswer Hstatus Hbody Hshape.
  rewrite (get_weather_parsed_body _ _ _ _ data Hanswer); trivial.
  - now rewrite (read_weather_info_body _ _ _ _ _ _ _ _ Hshape).
  - apply andb_false_iff. left. apply Nat.leb_gt. lia.
Qed.

Lemma london_body_has :
  body_has london_body (JStr "London") (JStr "GB") (JNum "11.5")
    (JNum "10.2") (JNum "81") "light rain" (JNum "4.1").
Proof.
  unfold body_has, london_body. do 6 eexists.
  split; [reflexivity|]. repeat split; reflexivity.
Defined.

Lemma get_weather_reads_fields_witness :
  fst (get_weather " london " sample_world [])
  = inr (Reading {| city := JStr "London"; country := JStr "GB";
                    temperature := JNum "11.5"; feels_like := JNum "10.2";
                    humidity := JNum "81"; description := "Light Rain";
                    wind_speed := JNum "4.1" |}).
Proof.
  apply (get_weather_reads_fields " london " sample_world []
           (ok_response london_body) london_body
           (JStr "London") (JStr "GB") (JNum "11.5") (JNum "10.2")
           (JNum "81") "light rain" (JNum "4.1")).
  - reflexivity.
  - simpl. lia.
  - reflexivity.
  - exact london_body_has.
Defined.

(** X9: a response with an error status other than 401 and 404 makes
    [get_weather] return the API-error text, which ends with the text of the
    library's [HTTPError]. *)
Theorem get_weather_other_status (city_name : string) (w : World)
    (log : list event) (response : Response) :
  provider_answer city_name w log = inr response ->
  400 <= status_code response < 600 ->
  status_code response <> 401 ->
  status_code response <> 404 ->
  fst (get_weather city_name w log)
  = inr (ErrorText ("❌ Weather API error: " ++ http_error_text response)).
Proof.
  intros Hanswer Hrange H401 H404.
  rewrite (get_weather_error_status _ _ _ _ Hanswer Hrange).
  apply Nat.eqb_neq in H401. apply Nat.eqb_neq in H404.
  now rewrite H401, H404.
Qed.

Lemma get_weather_other_status_witness :
  fst (get_weather "London"
         (world_with (Some "k")
            (inr (error_response 503 "503 Server Error: Service Unavailable"))
            (inr "")) [])
  = inr (ErrorText "❌ Weather API error: 503 Server Error: Service Unavailable").
Proof.
  apply (get_weather_other_status "London" _ []
           (error_response 503 "503 Server Error: Service Unavailable")).
  - reflexivity.
  - simpl. lia.
  - simpl. lia.
  - simpl. lia.
Defined.

(** X10: a request that fails with a requests exception gives the
    network-error text, and so does a response whose status is no error but
    whose body makes [response.json()] raise a requests exception. *)
Theorem get_weather_request_failures (city_name : string) (w : World)
    (log : list event) (msg : string) :
  (provider_answer city_name w log = inl (RequestException msg) ->
   fst (get_weather city_name w log)
   = inr (ErrorText ("❌ Network error fetching weather data: " ++ msg)))
  /\ (forall response,
         provider_answer city_name w log = inr response ->
         status_code response < 400 ->
         json_body response = inl (RequestException msg) ->
         fst (get_weather city_name w log)
         = inr (ErrorText ("❌ Network error fetching weather data: " ++ msg))).
Proof.
  split.
  - intros Hanswer. unfold_fetch. now rewrite Hanswer.
  - intros response Hanswer Hstatus Hbody. unfold_fetch.
    rewrite Hanswer, Hbody.
    assert (Hlo : (400 <=? status_code response) = false)
      by (apply Nat.leb_gt; lia).
    now rewrite Hlo.
Qed.

Lemma get_weather_request_failures_witness :
  fst (get_weather "London" silent_world [])
  = inr (ErrorText "❌ Network error fetching weather data: offline")
  /\ fst (get_weather "London"
            (world_with None
               (inr {| status_code := 200; http_error_text := "";
                       json_body := inl (RequestException "Expecting value") |})
               (inr "")) [])
     = inr (ErrorText "❌ Network error fetching weather data: Expecting value").
Proof.
  split.
  - apply (proj1 (get_weather_request_failures "London" silent_world []
                    "offline")).
    reflexivity.
  - apply (proj2 (get_weather_request_failures "London" _ [] "Expecting value")
             {| status_code := 200; http_error_text := "";
                json_body := inl (RequestException "Expecting value") |}).
    + reflexivity.
    + simpl. lia.
    + reflexivity.
Defined.

Ltac split_ifs H :=
  repeat match type of H with
         | context [if ?b then _ else _] => destruct b
         end.



Lemma getitem_raises (v : json) (s : subscript) (e : exn) :
  getitem v s = inl e -> parse_class e = true.
Proof.
  destruct v, s; simpl; intros H;
    repeat match type of H with
           | match ?x with _ => _ end = _ => destruct x
           end;
    try discriminate; now injection H as <-.
Qed.

Lemma title_method_raises (v : json) (e : exn) :
  title_method v = inl e -> parse_class e = true.
Proof. destruct v; simpl; intros H; try discriminate; now injection H as <-. Qed.

Lemma and_then_raises {A B : Type} (r : result A) (k : A -> result B)
    (e : exn) :
  and_then r k = inl e -> r = inl e \/ exists a, k a = inl e.
Proof.
  destruct r as [e0|a]; simpl; intros H.
  - left. injection H as <-. reflexivity.
  - right. now exists a.
Qed.

(** The dict display raises only what subscripts and [title] raise. *)
Lemma read_weather_info_raises (data : json) (e : exn) :
  read_weather_info data = inl e -> parse_class e = true.
Proof.
  unfold read_weather_info. intros H.
  repeat (apply and_then_raises in H;
          destruct H as [H|[? H]];
          [first [now apply getitem_raises in H
                 | now apply title_method_raises in H]|]).
  discriminate.
Qed.

(** X12: when the request returns a response and [response.json()] raises
    nothing but requests exceptions, the only exceptions that leave
    [get_weather] are [IndexError], [TypeError] and [AttributeError], raised
    by a body of an unexpected shape. *)
Theorem get_weather_escaping_exceptions (city_name : string) (w : World)
    (log : list event) (response : Response) (e : exn) :
  provider_answer city_name w log = inr response ->
  (forall e', json_body response = inl e' ->
              exists msg, e' = RequestException msg) ->
  fst (get_weather city_name w log) = inl e ->
  e = IndexError \/ e = TypeError \/ e = AttributeError.
Proof.
  intros Hanswer Hjson H.
  unfold_fetch. rewrite Hanswer in H.
  destruct ((400 <=? status_code response) && (status_code response <? 600)).
  - split_ifs H; discriminate.
  - destruct (json_body response) as [e0|data] eqn:Ebody.
    + destruct (Hjson e0 eq_refl) as [msg ->]. discriminate.
    + destruct (read_weather_info data) as [e0|info] eqn:Eread;
        [|discriminate].
      apply read_weather_info_raises in Eread.
      destruct e0; try discriminate; cbn [fst] in H;
        injection H as <-; auto.
Qed.

Lemma get_weather_escaping_exceptions_witness :
  IndexError = IndexError \/ IndexError = TypeError
  \/ IndexError = AttributeError.
Proof.
  apply (get_weather_escaping_exceptions "London" empty_weather_world []
           (ok_response empty_weather_body) IndexError).
  - reflexivity.
  - intros e' H. discriminate.
  - reflexivity.
Defined.

(** ** More on the orchestrator *)

(** X13: answering one question adds events to the log and costs at most
    one request to the weather provider and at most one call of the model;
    a question that is not a weather question sends no request. *)
Theorem ask_ai_call_budget (question : string) (w : World) (log : list event) :
  exists evs,
    snd (ask_ai_with_tools question w log) = (log ++ evs)%list
    /\ count is_request evs <= 1
    /\ count is_model_call evs <= 1
    /\ (detect_intent question <> "weather" -> count is_request evs = 0).
Proof.
  destruct (detect_intent_range question) as [H|[H|H]].
  - rewrite (ask_weather_run _ _ _ H).
    destruct (extract_city_from_question question) as [[|a c]|].
    + exists []. rewrite app_nil_r. repeat split; auto.
    + assert (Hlog := get_weather_log (String a c) w log).
      destruct (get_weather (String a c) w log) as [[e|[info|message]] log'];
        cbn [snd] in Hlog; subst log'.
      * exists (fetch_events (String a c) w).
        repeat split; auto; congruence.
      * exists (fetch_events (String a c) w
                ++ [GenerateContent (weather_context info question)])%list.
        unfold generate_content. cbn [snd]. rewrite <- app_assoc.
        repeat split; auto; congruence.
      * exists (fetch_events (String a c) w).
        repeat split; auto; congruence.
    + exists []. rewrite app_nil_r. repeat split; auto.
  - rewrite (ask_time_run _ _ _ H). cbn zeta. eexists.
    split; [reflexivity|]. repeat split; auto.
  - rewrite (ask_general_run _ _ _ H). eexists.
    split; [reflexivity|]. repeat split; auto.
Qed.

Lemma occurs_in_head (k t : string) : occurs_in k (k ++ t).
Proof. now exists "", t. Qed.

Lemma occurs_in_skip (k s t : string) : occurs_in k t -> occurs_in k (s ++ t).
Proof.
  intros [pre [post ->]]. exists (s ++ pre), post. now rewrite append_assoc.
Qed.

(** X14: for a weather question with an extracted city, a response without
    error status whose body has every field leads to one call of the model.
    Its prompt is the weather context of those fields, which holds the
    question as it was asked, and the answer of the orchestrator is the
    outcome of that call. *)
Theorem ask_weather_reading (question c : string) (w : World)
    (log : list event) (response : Response)
    (data name country temp feels hum : json) (desc : string) (speed : json) :
  detect_intent question = "weather" ->
  extract_city_from_question question = Some c ->
  provider_answer c w log = inr response ->
  status_code response < 400 ->
  json_body response = inr data ->
  body_has data name country temp feels hum desc speed ->
  ask_ai_with_tools question w log
  = (generate_text w (log ++ fetch_events c w)%list
       (weather_context
          {| city := name; country := country; temperature := temp;
             feels_like := feels; humidity := hum;
             description := PyStr.title desc; wind_speed := speed |}
          question),
     (log ++ fetch_events c w
      ++ [GenerateContent
            (weather_context
               {| city := name; country := country; temperature := temp;
                  feels_like := feels; humidity := hum;
                  description := PyStr.title desc; wind_speed := speed |}
               question)])%list)
  /\ occurs_in question
       (weather_context
          {| city := name; country := country; temperature := temp;
             feels_like := feels; humidity := hum;
             description := PyStr.title desc; wind_speed := speed |}
          question).
Proof.
  intros Hintent Hcity Hanswer Hstatus Hbody Hshape. split.
  - rewrite (ask_weather_run _ _ _ Hintent), Hcity.
    assert (Hne := extract_city_nonempty _ _ Hcity).
    assert (Hlog := get_weather_log c w log).
    assert (Hfst : fst (get_weather c w log)
                   = inr (Reading
                            {| city := name; country := country;
                               temperature := temp; feels_like := feels;
                               humidity := hum;
                               description := PyStr.title desc;
                               wind_speed := speed |})).
    { rewrite (get_weather_parsed_body _ _ _ _ data Hanswer); trivial.
      - now rewrite (read_weather_info_body _ _ _ _ _ _ _ _ Hshape).
      - apply andb_false_iff. left. apply Nat.leb_gt. lia. }
    destruct (get_weather c w log) as [r log']. cbn [fst snd] in *.
    subst r log'. destruct c as [|a c]; [congruence|].
    unfold generate_content. now rewrite <- app_assoc.
  - unfold weather_context.
    repeat first [apply occurs_in_head | apply occurs_in_skip].
Qed.

Lemma ask_weather_reading_witness :
  ask_ai_with_tools "Weather in London" sample_world []
  = (inr "It is mild in London.",
     (fetch_events "London" sample_world
      ++ [GenerateContent
            (weather_context
               {| city := JStr "London"; country := JStr "GB";
                  temperature := JNum "11.5"; feels_like := JNum "10.2";
                  humidity := JNum "81"; description := "Light Rain";
                  wind_speed := JNum "4.1" |}
               "Weather in London")])%list)
  /\ occurs_in "Weather in London"
       (weather_context
          {| city := JStr "London"; country := JStr "GB";
             temperature := JNum "11.5"; feels_like := JNum "10.2";
             humidity := JNum "81"; description := "Light Rain";
             wind_speed := JNum "4.1" |}
          "Weather in London").
Proof.
  apply (ask_weather_reading "Weather in London" "London" sample_world []
           (ok_response london_body) london_body
           (JStr "London") (JStr "GB") (JNum "11.5") (JNum "10.2")
           (JNum "81") "light rain" (JNum "4.1")).
  - reflexivity.
  - reflexivity.
  - reflexivity.
  - simpl. lia.
  - reflexivity.
  - exact london_body_has.
Defined.

(** ** The chat loop *)

Lemma chat_loop_cons (line : string) (rest : list string) (w : World)
    (log : list event) :
  chat_loop (line :: rest) w log
  = if is_quit line
    then (inr tt, (log ++ [Input "You: "; Print "Goodbye!"])%list)
    else match ask_ai_with_tools line w (log ++ [Input "You: "])%list with
         | (inl e, log') => (inl e, log')
         | (inr response, log') =>
             chat_loop rest w
               (log' ++ [Print ("AI: " ++ response); Print ""])%list
         end.
Proof.
  unfold is_quit.
  change (chat_loop (line :: rest))
    with (user_input <- input "You: " (line :: rest) ;;
          if PyStr.list_in (PyStr.lower user_input) ["quit"; "exit"; "bye"]
          then print "Goodbye!"
          else
            response <- ask_ai_with_tools user_input ;;
            print ("AI: " ++ response) ;;
            print "" ;;
            chat_loop rest).
  unfold bind at 1. unfold input at 1. cbn beta iota.
  destruct (PyStr.list_in (PyStr.lower line) ["quit"; "exit"; "bye"]).
  - unfold print. now rewrite <- app_assoc.
  - unfold bind at 1.
    destruct (ask_ai_with_tools line w _) as [[e|response] log'];
      [reflexivity|].
    unfold bind at 1. unfold print at 1.
    unfold bind at 1. unfold print at 1.
    now rewrite <- app_assoc.
Qed.

Lemma is_quit_iff (line : string) :
  is_quit line = true
  <-> PyStr.lower line = "quit" \/ PyStr.lower line = "exit"
      \/ PyStr.lower line = "bye".
Proof.
  unfold is_quit. rewrite list_in_iff. simpl. split.
  - intros [H|[H|[H|[]]]]; auto.
  - intros [H|[H|H]]; auto.
Qed.

(** X15: a line that is quit, exit or bye in any letter case ends the loop
    with the farewell: the orchestrator is not called, nothing is sent and
    the lines after it are not read. *)
Theorem chat_loop_quit (line : string) (rest : list string) (w : World)
    (log : list event) :
  PyStr.lower line = "quit" \/ PyStr.lower line = "exit"
  \/ PyStr.lower line = "bye" ->
  chat_loop (line :: rest) w log
  = (inr tt, (log ++ [Input "You: "; Print "Goodbye!"])%list).
Proof.
  intros H. apply is_quit_iff in H. now rewrite chat_loop_cons, H.
Qed.

Lemma chat_loop_quit_witness :
  chat_loop ["QuIt"; "what's the weather in Paris"] sample_world []
  = (inr tt, [Input "You: "; Print "Goodbye!"]).
Proof.
  apply (chat_loop_quit "QuIt" ["what's the weather in Paris"] sample_world []).
  left. reflexivity.
Defined.


Lemma is_quit_general (line : string) :
  is_quit line = true -> detect_intent line = "general".
Proof.
  intros H. apply is_quit_iff in H. unfold detect_intent.
  destruct H as [-> | [-> | ->]]; reflexivity.
Qed.

(** X17: an exception that leaves [get_weather] ends the chat loop: when the
    line is a weather question with a city and the fetch raises, the loop
    raises the same exception after the request, prints no answer and reads
    no further line. *)
Theorem chat_loop_fetch_exception (line c : string) (rest : list string)
    (w : World) (log : list event) (e : exn) :
  detect_intent line = "weather" ->
  extract_city_from_question line = Some c ->
  fst (get_weather c w (log ++ [Input "You: "])%list) = inl e ->
  chat_loop (line :: rest) w log
  = (inl e, (log ++ [Input "You: "] ++ fetch_events c w)%list).
Proof.
  intros Hintent Hcity Hraise. rewrite chat_loop_cons.
  destruct (is_quit line) eqn:Eq.
  - apply is_quit_general in Eq. congruence.
  - rewrite (ask_weather_run _ _ _ Hintent), Hcity.
    assert (Hne := extract_city_nonempty _ _ Hcity).
    assert (Hlog := get_weather_log c w (log ++ [Input "You: "])%list).
    destruct (get_weather c w (log ++ [Input "You: "])%list) as [r log'].
    cbn [fst snd] in *. subst r log'.
    destruct c as [|a c]; [congruence|]. now rewrite <- app_assoc.
Qed.

Lemma chat_loop_fetch_exception_witness :
  chat_loop ["weather in London"; "quit"] empty_weather_world []
  = (inl IndexError,
     ([Input "You: "] ++ fetch_events "London" empty_weather_world)%list).
Proof.
  apply (chat_loop_fetch_exception "weather in London" "London" ["quit"]
           empty_weather_world [] IndexError); reflexivity.
Defined.

(** ** The entry point, when the model fails *)

(** X18: without a weather key, a model call that raises in the time smoke
    test ends the program there: [main] raises that exception, the log stops
    at the call, and no line of the input is read. *)
Theorem main_model_failure (stdin : list string) (w : World) (e : exn) :
  falsy (WEATHER_API_KEY w) = true ->
  generate_text w
    (map Print banner ++ map Print key_warning
     ++ [Print "Testing time feature..."; ClockRead])%list
    (time_context
       (strftime
          (datetime_now w
             (map Print banner ++ map Print key_warning
              ++ [Print "Testing time feature..."])%list))
       "What time is it")
  = inl e ->
  run (main stdin) w
  = (inl e,
     (map Print banner ++ map Print key_warning
      ++ [Print "Testing time feature..."; ClockRead;
          GenerateContent
            (time_context
               (strftime
                  (datetime_now w
                     (map Print banner ++ map Print key_warning
                      ++ [Print "Testing time feature..."])%list))
               "What time is it")])%list).
Proof.
  intros Hkey Hraise. unfold run, main.
  unfold bind at 1. unfold startup.
  unfold bind at 1. rewrite print_all_run. cbn [app].
  unfold bind at 1. unfold get_api_key at 1. rewrite Hkey.
  unfold bind at 1. rewrite print_all_run.
  unfold bind at 1. unfold print at 1.
  unfold bind at 1.
  rewrite (ask_time_run "What time is it" w _ eq_refl). cbn zeta.
  rewrite <- ?app_assoc. cbn [app].
  rewrite Hraise. reflexivity.
Qed.

Lemma main_model_failure_witness :
  exists log,
    run (main ["hello"; "quit"])
        (world_with None (inl (RequestException "offline"))
                    (inl (ModelError "API key not valid")))
    = (inl (ModelError "API key not valid"), log)
    /\ ~ In (Input "You: ") log.
Proof.
  eexists. split.
  - apply (main_model_failure ["hello"; "quit"]
             (world_with None (inl (RequestException "offline"))
                         (inl (ModelError "API key not valid")))
             (ModelError "API key not valid")); reflexivity.
  - intros H. repeat (destruct H as [H|H]; [discriminate|]). exact H.
Defined.

(** ** The time provider *)

Lemma parse_clock_format (h m s : nat) :
  h < 100 -> m < 100 -> s < 100 ->
  parse_clock (two_digits h ++ ":" ++ two_digits m ++ ":" ++ two_digits s)
  = Some (h, m, s).
Proof.
  intros Hh Hm Hs. unfold two_digits, parse_clock. cbn [append forallb].
  rewrite !isdigit_digit. cbn [andb].
  change (is_colon ":") with true. cbn iota.
  rewrite !digit_value_digit.
  now rewrite (two_digits_value _ Hh), (two_digits_value _ Hm),
    (two_digits_value _ Hs).
Qed.

Lemma strftime_parts (t : datetime) :
  PyStr.take 10 (strftime t) = format_date t
  /\ String.get 10 (strftime t) = Some " "%char
  /\ drop 11 (strftime t)
     = two_digits (hour t) ++ ":" ++ two_digits (minute t) ++ ":"
       ++ two_digits (second t)
  /\ String.length (strftime t) = 19.
Proof.
  unfold strftime, format_date, four_digits, two_digits. cbn. repeat split.
Qed.

(** X19: [get_current_time] reads the clock once and returns a text of 19
    characters, YYYY-MM-DD HH:MM:SS, from which the reading is recovered to
    the second: date, hour, minute and second come back as they were, and
    the microseconds and the fold of the reading are not in the text. *)
Theorem get_current_time_round_trip (w : World) (log : list event) :
  valid_datetime (datetime_now w log) ->
  exists text,
    get_current_time w log = (inr text, (log ++ [ClockRead])%list)
    /\ String.length text = 19
    /\ parse_timestamp text = Some (to_the_second (datetime_now w log))
    /\ text = strftime (to_the_second (datetime_now w log)).
Proof.
  intros [[[_ Hy] [[_ Hm] [_ Hd]]] [Hh [Hmi Hs]]].
  exists (strftime (datetime_now w log)).
  destruct (strftime_parts (datetime_now w log)) as [Htake [Hget [Hdrop Hlen]]].
  split; [reflexivity|]. split; [exact Hlen|]. split; [|reflexivity].
  unfold parse_timestamp. rewrite Htake, Hget, Hdrop.
  rewrite parse_format_date by lia.
  rewrite parse_clock_format by lia.
  change (PyStr.ord " " =? 32) with true. cbn iota.
  reflexivity.
Qed.

Lemma get_current_time_round_trip_witness :
  exists text,
    get_current_time sample_world [] = (inr text, [ClockRead])
    /\ String.length text = 19
    /\ parse_timestamp text = Some (to_the_second sample_time)
    /\ text = strftime (to_the_second sample_time).
Proof.
  apply (get_current_time_round_trip sample_world []).
  unfold valid_datetime, valid_date. simpl. lia.
Defined.

(** ** Weather questions and the request *)

(** X20: a weather question sends a request exactly when a city is
    extracted: with a city, the first events of the answer are the
    diagnostic line and the request for that city, whatever the city is;
    without one, nothing is added to the log. *)
Theorem ask_weather_request_iff_city (question : string) (w : World)
    (log : list event) :
  detect_intent question = "weather" ->
  (forall c, extract_city_from_question question = Some c ->
             exists rest,
               snd (ask_ai_with_tools question w log)
               = (log ++ fetch_events c w ++ rest)%list)
  /\ (extract_city_from_question question = None <->
      snd (ask_ai_with_tools question w log) = log).
Proof.
  intros Hintent.
  assert (Hsome : forall c, extract_city_from_question question = Some c ->
                            exists rest,
                              snd (ask_ai_with_tools question w log)
                              = (log ++ fetch_events c w ++ rest)%list).
  { intros c Hcity. rewrite (ask_weather_run _ _ _ Hintent), Hcity.
    assert (Hne := extract_city_nonempty _ _ Hcity).
    assert (Hlog := get_weather_log c w log).
    destruct c as [|a c]; [congruence|].
    destruct (get_weather (String a c) w log) as [[e|[info|message]] log'];
      cbn [snd] in *; subst log'.
    - exists []. now rewrite app_nil_r.
    - unfold generate_content. cbn [snd]. eexists.
      rewrite <- app_assoc. reflexivity.
    - exists []. now rewrite app_nil_r. }
  split; trivial. split.
  - intros Hnone. rewrite (ask_weather_run _ _ _ Hintent). now rewrite Hnone.
  - intros Hlog.
    destruct (extract_city_from_question question) as [c|] eqn:Hcity; trivial.
    destruct (Hsome c eq_refl) as [rest Hrest]. rewrite Hlog in Hrest.
    apply (f_equal (@length event)) in Hrest.
    rewrite !length_app in Hrest. simpl in Hrest. lia.
Qed.

Lemma ask_weather_request_iff_city_witness :
  (exists rest,
      snd (ask_ai_with_tools "Weather in atlantis" not_found_world [])
      = (fetch_events "Atlantis" not_found_world ++ rest)%list)
  /\ snd (ask_ai_with_tools "what's the weather" not_found_world []) = [].
Proof.
  split.
  - apply (proj1 (ask_weather_request_iff_city "Weather in atlantis"
                    not_found_world [] eq_refl) "Atlantis").
    reflexivity.
  - apply (proj1 (proj2 (ask_weather_request_iff_city "what's the weather"
                           not_found_world [] eq_refl))).
    reflexivity.
Defined.
